(** * jimmyverse.dev: project-command detection and folder import

    A shallow embedding of [app/utils/projectCommands.ts] and
    [app/utils/folderImport.ts], followed by the properties of the
    detector, of the commands message, of the tag escaping and of the
    folder-import assembler.

    Conventions.
    - A JavaScript string is a [string]: the sequence of its UTF-8 bytes.
      Every test the code makes on a character is a test against an ASCII
      character (['<'], ['>'], ['/'] and the letters of the literals), and
      no byte of a multi-byte UTF-8 sequence is an ASCII byte, so
      concatenation, suffix tests and the two tag patterns behave on the
      bytes as they do on the UTF-16 code units.
    - [undefined] in an optional field is [None].
    - A thrown exception is [None] in the [option] of a fallible step.
    - [generateId] and [new Date()] read and advance a world that the
      embedding threads explicitly. *)

From Stdlib Require Import String Ascii List Bool Arith Lia ZArith DecimalString.
Import ListNotations.
Open Scope string_scope.

(* ===================================================================== *)
(** * JavaScript string primitives *)
(* ===================================================================== *)

(** The double quote, U+0022, and the one-character string made of it. *)
Definition quoteChar : ascii := Ascii false true false false false true false false.
Definition dq : string := String quoteChar EmptyString.

(** [stripPrefix p s] is [Some r] exactly when [s = p ++ r]. *)
Fixpoint stripPrefix (p s : string) : option string :=
  match p with
  | EmptyString => Some s
  | String a p' =>
      match s with
      | EmptyString => None
      | String b s' => if Ascii.eqb a b then stripPrefix p' s' else None
      end
  end.

(** [String.prototype.startsWith]. *)
Definition startsWith (s p : string) : bool :=
  match stripPrefix p s with Some _ => true | None => false end.

(** [String.prototype.endsWith(searchString)]: with [start = length s -
    length searchString], the answer is [false] when [start < 0] and
    otherwise whether the code units from [start] on are [searchString]. *)
Definition endsWith (s searchString : string) : bool :=
  (String.length searchString <=? String.length s)%nat
  && String.eqb
       (substring (String.length s - String.length searchString)
                  (String.length searchString) s)
       searchString.

(** [String.prototype.includes]. *)
Fixpoint includes (s pat : string) : bool :=
  startsWith s pat
  || match s with
     | EmptyString => false
     | String _ s' => includes s' pat
     end.

(** Whether the character [c] occurs in [s]. *)
Fixpoint charIn (c : ascii) (s : string) : bool :=
  match s with
  | EmptyString => false
  | String a s' => Ascii.eqb a c || charIn c s'
  end.

(** [s.replace(/c/g, by)] for a single-character pattern. *)
Fixpoint replaceChar (c : ascii) (by_ : string) (s : string) : string :=
  match s with
  | EmptyString => EmptyString
  | String a s' =>
      if Ascii.eqb a c then by_ ++ replaceChar c by_ s'
      else String a (replaceChar c by_ s')
  end.

(** [s.split(sep)] for a single-character separator: never the empty list. *)
Fixpoint split (sep : ascii) (s : string) : list string :=
  match s with
  | EmptyString => [EmptyString]
  | String a s' =>
      if Ascii.eqb a sep then EmptyString :: split sep s'
      else match split sep s' with
           | [] => [String a EmptyString]
           | seg :: segs => String a seg :: segs
           end
  end.

(** [Array.prototype.slice(1)]. *)
Definition slice1 {A : Type} (l : list A) : list A := List.tl l.

(** [Array.prototype.join(sep)]. *)
Fixpoint join (sep : string) (l : list string) : string :=
  match l with
  | [] => EmptyString
  | [x] => x
  | x :: rest => x ++ sep ++ join sep rest
  end.

(** A number inside a template literal: its decimal digits. *)
Definition numberToString (n : nat) : string :=
  NilEmpty.string_of_uint (Nat.to_uint n).

(* ===================================================================== *)
(** * JavaScript values produced by [JSON.parse] *)
(* ===================================================================== *)

(** A JSON number is kept as the decimal it was written as,
    [mantissa * 10 ^ exponent]. *)
#[local] Set Warnings "-register-all".
Inductive JSValue : Type :=
| JNull
| JBool (b : bool)
| JNumber (mantissa exponent : Z)
| JString (s : string)
| JArray (items : list JSValue)
| JObject (members : list (string * JSValue)).

(** Whether the double nearest to [m * 10 ^ e] is zero: [m] is zero, or the
    decimal is at most [2 ^ -1075], half the least positive double (the tie
    goes to the even neighbour, which is zero). *)
Definition roundsToZero (m e : Z) : bool :=
  (m =? 0)%Z
  || ((e <? 0)%Z && (Z.abs m * 2 ^ 1075 <=? 10 ^ (- e))%Z).

(** [ToBoolean] on a value; [None] is [undefined]. *)
Definition truthy (v : option JSValue) : bool :=
  match v with
  | None => false
  | Some JNull => false
  | Some (JBool b) => b
  | Some (JNumber m e) => negb (roundsToZero m e)
  | Some (JString s) => negb (String.eqb s EmptyString)
  | Some (JArray _) => true
  | Some (JObject _) => true
  end.

(** The own property [key] of a parsed object. *)
Fixpoint lookupMember (key : string) (members : list (string * JSValue))
  : option JSValue :=
  match members with
  | [] => None
  | (k, v) :: rest => if String.eqb k key then Some v else lookupMember key rest
  end.

(** [CreateDataProperty]: a repeated key keeps its place and takes the
    later value. *)
Fixpoint setMember (key : string) (v : JSValue)
  (members : list (string * JSValue)) : list (string * JSValue) :=
  match members with
  | [] => [(key, v)]
  | (k, v0) :: rest =>
      if String.eqb k key then (k, v) :: rest
      else (k, v0) :: setMember key v rest
  end.

(** The names the detector reads: none of them is a property of a string,
    array, number or boolean wrapper, nor of [Object.prototype]. *)
Definition detectorKeys : list string := ["scripts"; "dev"; "start"; "preview"].

(** [v[key]] for one of the [detectorKeys].
    Outer [None]: a [TypeError] (the base is [null] or [undefined]).
    Inner [None]: the property is [undefined]. *)
Definition getProp (v : option JSValue) (key : string)
  : option (option JSValue) :=
  match v with
  | None => None
  | Some JNull => None
  | Some (JObject members) => Some (lookupMember key members)
  | Some _ => Some None
  end.

(** [v?.key]: [undefined] on a [null] or [undefined] base. *)
Definition getPropOptional (v : option JSValue) (key : string)
  : option JSValue :=
  match getProp v key with
  | Some r => r
  | None => None
  end.

(** [a || b] on values. *)
Definition orElse (a b : option JSValue) : option JSValue :=
  if truthy a then a else b.

(* ===================================================================== *)
(** * A reader for JSON texts *)
(* ===================================================================== *)

(** The detector is stated over any [JSON.parse] (a parameter below).
    [parseJSON] is the grammar of ECMA-404 run on bytes; the examples use
    it as that parameter.  A [\u] escape stores its code unit in UTF-8
    form, a surrogate half as a three-byte group of its own. *)

Definition isWhitespace (c : ascii) : bool :=
  let n := nat_of_ascii c in
  (n =? 32)%nat || (n =? 9)%nat || (n =? 10)%nat || (n =? 13)%nat.

Fixpoint skipWhitespace (s : string) : string :=
  match s with
  | String c s' => if isWhitespace c then skipWhitespace s' else s
  | EmptyString => s
  end.

Definition digitValue (c : ascii) : option Z :=
  let n := nat_of_ascii c in
  if ((48 <=? n) && (n <=? 57))%nat then Some (Z.of_nat (n - 48)) else None.

Definition hexValue (c : ascii) : option nat :=
  let n := nat_of_ascii c in
  if ((48 <=? n) && (n <=? 57))%nat then Some (n - 48)%nat
  else if ((65 <=? n) && (n <=? 70))%nat then Some (n - 55)%nat
  else if ((97 <=? n) && (n <=? 102))%nat then Some (n - 87)%nat
  else None.

(** [readDigits acc count s]: the longest run of digits at the head of [s],
    accumulated into [acc], with the number of digits read. *)
Fixpoint readDigits (acc : Z) (count : nat) (s : string) : Z * nat * string :=
  match s with
  | String c s' =>
      match digitValue c with
      | Some d => readDigits (acc * 10 + d)%Z (S count) s'
      | None => (acc, count, s)
      end
  | EmptyString => (acc, count, s)
  end.

(** The integer part: a lone [0], or a digit run that does not start
    with [0]. *)
Definition readInt (s : string) : option (Z * string) :=
  match s with
  | String c s' =>
      match digitValue c with
      | Some 0%Z => Some (0%Z, s')
      | Some d => let '(m, _, r) := readDigits d 1 s' in Some (m, r)
      | None => None
      end
  | EmptyString => None
  end.

(** The optional fraction: the digits extend the mantissa and lower the
    exponent. *)
Definition readFrac (m : Z) (s : string) : option (Z * Z * string) :=
  match s with
  | String "." s' =>
      let '(m', count, r) := readDigits m 0 s' in
      match count with
      | O => None
      | _ => Some (m', (- Z.of_nat count)%Z, r)
      end
  | _ => Some (m, 0%Z, s)
  end.

Definition readExpDigits (negative : bool) (s : string) : option (Z * string) :=
  let '(x, count, r) := readDigits 0 0 s in
  match count with
  | O => None
  | _ => Some (if negative then (- x)%Z else x, r)
  end.

Definition readExp (s : string) : option (Z * string) :=
  match s with
  | String c s' =>
      if Ascii.eqb c "e" || Ascii.eqb c "E" then
        match s' with
        | String "+" s'' => readExpDigits false s''
        | String "-" s'' => readExpDigits true s''
        | _ => readExpDigits false s'
        end
      else Some (0%Z, s)
  | EmptyString => Some (0%Z, s)
  end.

Definition readNumber (s : string) : option (JSValue * string) :=
  let '(negative, s1) :=
    match s with
    | String "-" s' => (true, s')
    | _ => (false, s)
    end in
  match readInt s1 with
  | None => None
  | Some (m, s2) =>
      match readFrac m s2 with
      | None => None
      | Some (m', e1, s3) =>
          match readExp s3 with
          | None => None
          | Some (e2, s4) =>
              Some (JNumber (if negative then (- m')%Z else m') (e1 + e2)%Z, s4)
          end
      end
  end.

(** The UTF-8 form of a code unit below [2 ^ 16]. *)
Definition utf8 (n : nat) : string :=
  if (n <? 128)%nat then String (ascii_of_nat n) EmptyString
  else if (n <? 2048)%nat then
    String (ascii_of_nat (192 + n / 64))
      (String (ascii_of_nat (128 + n mod 64)) EmptyString)
  else
    String (ascii_of_nat (224 + n / 4096))
      (String (ascii_of_nat (128 + (n / 64) mod 64))
         (String (ascii_of_nat (128 + n mod 64)) EmptyString)).

Definition hex4 (a b c d : ascii) : option nat :=
  match hexValue a, hexValue b, hexValue c, hexValue d with
  | Some x, Some y, Some z, Some w => Some (((x * 16 + y) * 16 + z) * 16 + w)%nat
  | _, _, _, _ => None
  end.

(** The characters of a string literal after its opening quote, up to and
    including the closing quote. *)
Fixpoint readStringBody (s : string) : option (string * string) :=
  let cons (piece : string) (r : option (string * string)) :=
    match r with
    | Some (body, rest) => Some (piece ++ body, rest)
    | None => None
    end in
  let char (n : nat) := String (ascii_of_nat n) EmptyString in
  match s with
  | EmptyString => None
  | String c s' =>
      if Ascii.eqb c quoteChar then Some (EmptyString, s')
      else if Ascii.eqb c "\" then
        match s' with
        | EmptyString => None
        | String e s'' =>
            if Ascii.eqb e quoteChar then cons (char 34) (readStringBody s'')
            else
              match e with
              | "\"%char => cons (char 92) (readStringBody s'')
              | "/"%char => cons (char 47) (readStringBody s'')
              | "b"%char => cons (char 8) (readStringBody s'')
              | "f"%char => cons (char 12) (readStringBody s'')
              | "n"%char => cons (char 10) (readStringBody s'')
              | "r"%char => cons (char 13) (readStringBody s'')
              | "t"%char => cons (char 9) (readStringBody s'')
              | "u"%char =>
                  match s'' with
                  | String a (String b (String c (String d s3))) =>
                      match hex4 a b c d with
                      | Some n => cons (utf8 n) (readStringBody s3)
                      | None => None
                      end
                  | _ => None
                  end
              | _ => None
              end
        end
      else if (nat_of_ascii c <? 32)%nat then None
      else cons (String c EmptyString) (readStringBody s')
  end.

(** The three literal names, else a number. *)
Definition readLiteralOrNumber (s : string) : option (JSValue * string) :=
  match stripPrefix "true" s, stripPrefix "false" s, stripPrefix "null" s with
  | Some r, _, _ => Some (JBool true, r)
  | _, Some r, _ => Some (JBool false, r)
  | _, _, Some r => Some (JNull, r)
  | None, None, None => readNumber s
  end.

(** One value at the head of [s] (after whitespace), with what follows it.
    [fuel] bounds the number of values, elements and members read. *)
Fixpoint readValue (fuel : nat) (s : string) {struct fuel}
  : option (JSValue * string) :=
  match fuel with
  | O => None
  | S fuel' =>
      match skipWhitespace s with
      | EmptyString => None
      | String c s' as s0 =>
          if Ascii.eqb c "{" then
            match skipWhitespace s' with
            | String "}" r => Some (JObject [], r)
            | s'' => readMembers fuel' s'' []
            end
          else if Ascii.eqb c "[" then
            match skipWhitespace s' with
            | String "]" r => Some (JArray [], r)
            | s'' => readElements fuel' s'' []
            end
          else if Ascii.eqb c quoteChar then
            match readStringBody s' with
            | Some (str, r) => Some (JString str, r)
            | None => None
            end
          else readLiteralOrNumber s0
      end
  end

with readElements (fuel : nat) (s : string) (acc : list JSValue) {struct fuel}
  : option (JSValue * string) :=
  match fuel with
  | O => None
  | S fuel' =>
      match readValue fuel' s with
      | None => None
      | Some (v, r) =>
          match skipWhitespace r with
          | String "," r' => readElements fuel' r' (acc ++ [v])
          | String "]" r' => Some (JArray (acc ++ [v]), r')
          | _ => None
          end
      end
  end

with readMembers (fuel : nat) (s : string) (acc : list (string * JSValue))
  {struct fuel} : option (JSValue * string) :=
  match fuel with
  | O => None
  | S fuel' =>
      match skipWhitespace s with
      | String c s' =>
          if Ascii.eqb c quoteChar then
            match readStringBody s' with
            | None => None
            | Some (key, r) =>
                match skipWhitespace r with
                | String ":" r' =>
                    match readValue fuel' r' with
                    | None => None
                    | Some (v, r'') =>
                        match skipWhitespace r'' with
                        | String "," r3 =>
                            readMembers fuel' r3 (setMember key v acc)
                        | String "}" r3 =>
                            Some (JObject (setMember key v acc), r3)
                        | _ => None
                        end
                    end
                | _ => None
                end
            end
          else None
      | EmptyString => None
      end
  end.

(** A whole text: one value, then only whitespace.  [None] is the
    [SyntaxError] of [JSON.parse]. *)
Definition parseJSON (text : string) : option JSValue :=
  match readValue (S (String.length text)) text with
  | Some (v, r) =>
      match skipWhitespace r with
      | EmptyString => Some v
      | _ => None
      end
  | None => None
  end.


(* ===================================================================== *)
(** * app/utils/projectCommands.ts *)
(* ===================================================================== *)

(** The line feed of the template literals. *)
Definition nl : string := String "010"%char EmptyString.

(** [interface ProjectCommands]. *)
Module ProjectCommands.
Record t : Type := mk {
  type : string;
  setupCommand : option string;
  startCommand : option string;
  followupMessage : string;
  autoStart : option bool
}.
End ProjectCommands.

(** [interface FileContent]. *)
Module FileContent.
Record t : Type := mk {
  content : string;
  path : string
}.
End FileContent.

(** [Message] of the [ai] package, with the fields this code sets.
    [createdAt] is the time value of the [Date], in milliseconds. *)
Module Message.
Inductive Role : Type := system | user | assistant | data.

Record t : Type := mk {
  role : Role;
  content : string;
  id : string;
  createdAt : option Z
}.
End Message.

(** [ToBoolean] on an optional string field: [undefined] and [''] are
    falsy. *)
Definition truthyString (o : option string) : bool :=
  match o with
  | Some s => negb (String.eqb s EmptyString)
  | None => false
  end.

(** The interpolation [${o}] of an optional string field. *)
Definition interpolate (o : option string) : string :=
  match o with
  | Some s => s
  | None => "undefined"
  end.

Section Detector.

(** [JSON.parse]: [None] when it throws. *)
Variable JSON_parse : string -> option JSValue.

Definition hasFile (files : list FileContent.t) (name : string) : bool :=
  existsb (fun f => endsWith (FileContent.path f) name) files.

Definition preferredCommands : list string := ["dev"; "start"; "preview"].

(** [preferredCommands.find((cmd) => scripts[cmd])]; the outer [None] is
    an exception thrown by the callback. *)
Fixpoint findCommand (scripts : option JSValue) (cmds : list string)
  : option (option string) :=
  match cmds with
  | [] => Some None
  | cmd :: rest =>
      match getProp scripts cmd with
      | None => None
      | Some entry =>
          if truthy entry then Some (Some cmd) else findCommand scripts rest
      end
  end.

(** The body of the [try] block; [None] when it throws. *)
Definition detectFromPackageJson (content : string)
  : option ProjectCommands.t :=
  match JSON_parse content with
  | None => None
  | Some packageJson =>
      let scripts :=
        orElse (getPropOptional (Some packageJson) "scripts")
               (Some (JObject [])) in
      match findCommand scripts preferredCommands with
      | None => None
      | Some (Some availableCommand) =>
          Some {|
            ProjectCommands.type := "Node.js";
            ProjectCommands.setupCommand := Some "npm install";
            ProjectCommands.startCommand := Some ("npm run " ++ availableCommand);
            ProjectCommands.followupMessage :=
              "🚀 Jimmyverse.dev workflow: Installing dependencies and starting "
              ++ availableCommand ++ " server for live preview...";
            ProjectCommands.autoStart := None
          |}
      | Some None =>
          Some {|
            ProjectCommands.type := "Node.js";
            ProjectCommands.setupCommand := Some "npm install";
            ProjectCommands.startCommand := Some "npm start";
            ProjectCommands.followupMessage :=
              "📦 Installing dependencies and attempting to start the project...";
            ProjectCommands.autoStart := None
          |}
      end
  end.

Definition detectProjectCommands (files : list FileContent.t)
  : ProjectCommands.t :=
  if hasFile files "package.json" then
    match find (fun f => endsWith (FileContent.path f) "package.json") files with
    | None =>
        {| ProjectCommands.type := EmptyString;
           ProjectCommands.setupCommand := Some "npm install";
           ProjectCommands.startCommand := None;
           ProjectCommands.followupMessage := "Initializing npm project...";
           ProjectCommands.autoStart := None |}
    | Some packageJsonFile =>
        match detectFromPackageJson (FileContent.content packageJsonFile) with
        | Some commands => commands
        | None =>
            {| ProjectCommands.type := "Node.js";
               ProjectCommands.setupCommand := Some "npm install";
               ProjectCommands.startCommand := None;
               ProjectCommands.followupMessage :=
                 "⚠️ Error parsing package.json, but installing dependencies anyway...";
               ProjectCommands.autoStart := None |}
        end
    end
  else if hasFile files "index.html" then
    {| ProjectCommands.type := "Static";
       ProjectCommands.setupCommand := Some "npm install -g serve";
       ProjectCommands.startCommand := Some "npx --yes serve";
       ProjectCommands.followupMessage :=
         "🌐 Setting up static file server for live preview...";
       ProjectCommands.autoStart := None |}
  else
    {| ProjectCommands.type := "Unknown";
       ProjectCommands.setupCommand := Some "npm install";
       ProjectCommands.startCommand := None;
       ProjectCommands.followupMessage :=
         "🔧 Attempting to initialize project with npm...";
       ProjectCommands.autoStart := None |}.

End Detector.

(** The action tags of the templates. *)
Definition shellOpenTag : string := "<boltAction type=" ++ dq ++ "shell" ++ dq ++ ">".
Definition startOpenTag : string := "<boltAction type=" ++ dq ++ "start" ++ dq ++ ">".
Definition actionCloseTag : string := "</boltAction>".

(** The three steps that build [commandString] in [createCommandsMessage]. *)
Definition commandString (commands : ProjectCommands.t) : string :=
  let commandString := EmptyString in
  let commandString :=
    if truthyString (ProjectCommands.setupCommand commands) then
      commandString ++ nl ++ shellOpenTag
        ++ interpolate (ProjectCommands.setupCommand commands) ++ actionCloseTag
    else commandString in
  let commandString :=
    if truthyString (ProjectCommands.startCommand commands) then
      commandString ++ nl ++ startOpenTag
        ++ interpolate (ProjectCommands.startCommand commands) ++ actionCloseTag ++ nl
    else commandString in
  if String.eqb commandString EmptyString then
    nl ++ shellOpenTag ++ "npm install" ++ actionCloseTag ++ nl
      ++ startOpenTag ++ "npm run dev" ++ actionCloseTag ++ nl
  else commandString.

Definition setupArtifactOpenTag : string :=
  "<boltArtifact id=" ++ dq ++ "project-setup" ++ dq
    ++ " title=" ++ dq ++ "Jimmyverse.dev Project Setup" ++ dq ++ ">".

(** The [content] template of [createCommandsMessage]. *)
Definition commandsContent (commands : ProjectCommands.t) : string :=
  nl
  ++ (if negb (String.eqb (ProjectCommands.followupMessage commands) EmptyString)
      then nl ++ nl ++ ProjectCommands.followupMessage commands
      else "🚀 Jimmyverse.dev: Setting up your project with live preview...")
  ++ nl ++ setupArtifactOpenTag ++ nl
  ++ commandString commands ++ nl
  ++ "</boltArtifact>".

Section World.

(** What [generateId] and [new Date()] read and advance. *)
Variable World : Type.
Variable generateId : World -> string * World.
Variable newDate : World -> Z * World.

(** A computation in the world. *)
Definition Eff (A : Type) : Type := World -> A * World.

Definition ret {A : Type} (a : A) : Eff A := fun w => (a, w).

Definition bind {A B : Type} (m : Eff A) (f : A -> Eff B) : Eff B :=
  fun w => let r := m w in f (fst r) (snd r).

Notation "x <- m ;; k" := (bind m (fun x => k))
  (at level 61, m at next level, right associativity).

Definition createCommandsMessage (commands : ProjectCommands.t)
  : Eff (option Message.t) :=
  id <- generateId ;;
  createdAt <- newDate ;;
  ret (Some {|
    Message.role := Message.assistant;
    Message.content := commandsContent commands;
    Message.id := id;
    Message.createdAt := Some createdAt
  |}).

End World.

(* --------------------------------------------------------------------- *)
(** ** The tag patterns and [String.prototype.replace] *)
(* --------------------------------------------------------------------- *)

(** Both patterns have the shape
    [/(<NAME[^>]*>)([\s\S]*?)(<\/NAME>)/g]. *)

(** [[^>]*>]: the characters up to the first ['>'], and what follows it.
    The greedy run cannot give a character back, because the next pattern
    character is the one the run excludes. *)
Fixpoint scanToGt (s : string) : option (string * string) :=
  match s with
  | EmptyString => None
  | String c s' =>
      if Ascii.eqb c ">" then Some (EmptyString, s')
      else match scanToGt s' with
           | Some (run, rest) => Some (String c run, rest)
           | None => None
           end
  end.

(** [[\s\S]*?] followed by the literal [close]: the lazy run stops at the
    first place where [close] begins. *)
Fixpoint scanToClose (close s : string) : option (string * string) :=
  match stripPrefix close s with
  | Some rest => Some (EmptyString, rest)
  | None =>
      match s with
      | EmptyString => None
      | String c s' =>
          match scanToClose close s' with
          | Some (body, rest) => Some (String c body, rest)
          | None => None
          end
      end
  end.

(** One match of the pattern. *)
Record TagMatch : Type := mkTagMatch {
  openTag : string;   (* group 1 *)
  content : string;   (* group 2 *)
  closeTag : string;  (* group 3 *)
  after : string      (* the input after the match *)
}.

(** The match of the pattern for [name] that begins at the head of [s]. *)
Definition matchTagAt (name s : string) : option TagMatch :=
  match stripPrefix ("<" ++ name) s with
  | None => None
  | Some s1 =>
      match scanToGt s1 with
      | None => None
      | Some (attrs, s2) =>
          match scanToClose ("</" ++ name ++ ">") s2 with
          | None => None
          | Some (body, s3) =>
              Some {| openTag := "<" ++ name ++ attrs ++ ">";
                      content := body;
                      closeTag := "</" ++ name ++ ">";
                      after := s3 |}
          end
      end
  end.

Definition matchLength (m : TagMatch) : nat :=
  String.length (openTag m) + String.length (content m)
  + String.length (closeTag m).

(** [input.replace(regex, replacer)] with the [g] flag: the leftmost match
    is replaced by what [replacer] returns for its groups, the search goes
    on after the match, and every character outside a match is copied.
    [skip] counts the characters of the current match still to be passed
    over; the replacement starts with [skip = 0]. *)
Fixpoint replaceTagPairs (name : string)
  (replacer : string -> string -> string -> string)
  (input : string) (skip : nat) : string :=
  match input with
  | EmptyString => EmptyString
  | String c rest =>
      match skip with
      | S k => replaceTagPairs name replacer rest k
      | O =>
          match matchTagAt name input with
          | Some m =>
              replacer (openTag m) (content m) (closeTag m)
              ++ replaceTagPairs name replacer rest (matchLength m - 1)
          | None => String c (replaceTagPairs name replacer rest 0)
          end
      end
  end.

Definition escapeBoltArtifactTags (input : string) : string :=
  replaceTagPairs "boltArtifact"
    (fun openTag content closeTag =>
       let escapedOpenTag := replaceChar ">" "&gt;" (replaceChar "<" "&lt;" openTag) in
       let escapedCloseTag := replaceChar ">" "&gt;" (replaceChar "<" "&lt;" closeTag) in
       escapedOpenTag ++ content ++ escapedCloseTag)
    input 0.

Definition escapeBoltAActionTags (input : string) : string :=
  replaceTagPairs "boltAction"
    (fun openTag content closeTag =>
       let escapedOpenTag := replaceChar ">" "&gt;" (replaceChar "<" "&lt;" openTag) in
       let escapedCloseTag := replaceChar ">" "&gt;" (replaceChar "<" "&lt;" closeTag) in
       escapedOpenTag ++ content ++ escapedCloseTag)
    input 0.

Definition escapeBoltTags (input : string) : string :=
  escapeBoltArtifactTags (escapeBoltAActionTags input).

(** [a || b] on optional strings. *)
Definition orDefault (o : option string) (default : string) : string :=
  if truthyString o then interpolate o else default.

Definition createCommandActionsString (commands : ProjectCommands.t) : string :=
  let commandString := EmptyString in
  let setupCmd := orDefault (ProjectCommands.setupCommand commands) "npm install" in
  let commandString := commandString ++ nl ++ shellOpenTag ++ setupCmd ++ actionCloseTag in
  let startCmd := orDefault (ProjectCommands.startCommand commands) "npm run dev" in
  let commandString :=
    commandString ++ nl ++ startOpenTag ++ startCmd ++ actionCloseTag ++ nl in
  commandString.

(* ===================================================================== *)
(** * app/utils/folderImport.ts *)
(* ===================================================================== *)

(** A [File] of the folder picker: its [webkitRelativePath], and what
    [FileReader.readAsText] delivers for it: [Some text] through [onload],
    [None] when [onerror] fires. *)
Module File.
Record t : Type := mk {
  webkitRelativePath : string;
  readAsText : option string
}.
End File.

(** One promise of [files.map(...)]: it resolves with the text and the
    path without its first segment, or is rejected. *)
Definition readFile (file : File.t) : option FileContent.t :=
  match File.readAsText file with
  | Some content =>
      let relativePath :=
        join "/" (slice1 (split "/" (File.webkitRelativePath file))) in
      Some {| FileContent.content := content; FileContent.path := relativePath |}
  | None => None
  end.

(** [Promise.all]: every result in order, or a rejection. *)
Fixpoint promiseAll {A : Type} (promises : list (option A)) : option (list A) :=
  match promises with
  | [] => Some []
  | None :: _ => None
  | Some a :: rest =>
      match promiseAll rest with
      | Some l => Some (a :: l)
      | None => None
      end
  end.

Definition importArtifactOpenTag : string :=
  "<boltArtifact id=" ++ dq ++ "imported-files" ++ dq
    ++ " title=" ++ dq ++ "Imported Files" ++ dq
    ++ " type=" ++ dq ++ "bundled" ++ dq ++ " >".

(** The callback of [fileArtifacts.map(...)] in the files message. *)
Definition fileAction (file : FileContent.t) : string :=
  "<boltAction type=" ++ dq ++ "file" ++ dq
    ++ " filePath=" ++ dq ++ FileContent.path file ++ dq ++ ">" ++ nl
    ++ escapeBoltTags (FileContent.content file) ++ nl
    ++ "</boltAction>".

Definition binaryFilesMessage (binaryFiles : list string) : string :=
  if (0 <? List.length binaryFiles)%nat then
    nl ++ nl ++ "Skipped " ++ numberToString (List.length binaryFiles)
      ++ " binary files:" ++ nl
      ++ join nl (map (fun f => "- " ++ f) binaryFiles)
  else EmptyString.

Definition filesContent (fileArtifacts : list FileContent.t)
  (binaryFiles : list string) (folderName : string) : string :=
  "🚀 Jimmyverse.dev: I've imported the contents of the " ++ dq ++ folderName ++ dq
    ++ " folder and I'm setting up the development environment with live preview."
    ++ binaryFilesMessage binaryFiles
    ++ nl ++ nl
    ++ importArtifactOpenTag ++ nl
    ++ join (nl ++ nl) (map fileAction fileArtifacts)
    ++ nl ++ "</boltArtifact>".

Section FolderImport.

Variable JSON_parse : string -> option JSValue.
Variable World : Type.
Variable generateId : World -> string * World.
Variable newDate : World -> Z * World.

Notation "x <- m ;; k" := (bind World m (fun x => k))
  (at level 61, m at next level, right associativity).

(** The part of [createChatFromFolder] after the files are read.  An
    entry [None] of the result is a [null] in the array. *)
Definition assembleMessages (fileArtifacts : list FileContent.t)
  (binaryFiles : list string) (folderName : string)
  : Eff World (list (option Message.t)) :=
  let commands := detectProjectCommands JSON_parse fileArtifacts in
  commandsMessage <- createCommandsMessage World generateId newDate commands ;;
  filesId <- generateId ;;
  filesCreatedAt <- newDate ;;
  let filesMessage := {|
    Message.role := Message.assistant;
    Message.content := filesContent fileArtifacts binaryFiles folderName;
    Message.id := filesId;
    Message.createdAt := Some filesCreatedAt
  |} in
  userId <- generateId ;;
  userCreatedAt <- newDate ;;
  let userMessage := {|
    Message.role := Message.user;
    Message.id := userId;
    Message.content := "Import the " ++ dq ++ folderName ++ dq ++ " folder";
    Message.createdAt := Some userCreatedAt
  |} in
  let messages := [Some userMessage; Some filesMessage] in
  requestId <- generateId ;;
  let messages := (messages ++ [Some {|
    Message.role := Message.user;
    Message.id := requestId;
    Message.content :=
      "🔧 Jimmyverse.dev: Setup dependencies and start development server for live preview";
    Message.createdAt := None
  |}])%list in
  finalCommandsMessage <-
    match commandsMessage with
    | Some m => ret World (Some m)
    | None =>
        createCommandsMessage World generateId newDate {|
          ProjectCommands.type := "Unknown";
          ProjectCommands.setupCommand := Some "npm install";
          ProjectCommands.startCommand := Some "npm run dev";
          ProjectCommands.followupMessage :=
            "🚀 Jimmyverse.dev: Initializing project with default npm workflow...";
          ProjectCommands.autoStart := Some true
        |}
    end ;;
  ret World (messages ++ [finalCommandsMessage])%list.

(** [None]: the returned promise is rejected, because a file could not
    be read. *)
Definition createChatFromFolder (files : list File.t)
  (binaryFiles : list string) (folderName : string)
  : Eff World (option (list (option Message.t))) :=
  match promiseAll (map readFile files) with
  | None => ret World None
  | Some fileArtifacts =>
      messages <- assembleMessages fileArtifacts binaryFiles folderName ;;
      ret World (Some messages)
  end.

End FolderImport.

(* ===================================================================== *)
(** * app/utils/performance-config.ts *)
(* ===================================================================== *)

(** [class PerformanceMonitor]: the static [metrics] map and the methods
    that write it.  A [Map] keeps its entries in the order the keys were
    first set; the samples are never inspected, so their type is left
    open. *)
Module PerformanceMonitor.

Definition MAX_SAMPLES : nat := 100.

(** [Map.prototype.has]. *)
Fixpoint has {Number : Type} (label : string)
(metrics : list (string * list Number)) : bool :=
match metrics with
| [] => false
| (key, _) :: rest => String.eqb key label || has label rest
end.

(** [Map.prototype.get]; [None] is [undefined]. *)
Fixpoint get {Number : Type} (label : string)
(metrics : list (string * list Number)) : option (list Number) :=
match metrics with
| [] => None
| (key, samples) :: rest =>
    if String.eqb key label then Some samples else get label rest
end.

(** [Map.prototype.set]: a known key keeps its place, a new key goes last. *)
Fixpoint set {Number : Type} (label : string) (samples : list Number)
(metrics : list (string * list Number)) : list (string * list Number) :=
match metrics with
| [] => [(label, samples)]
| (key, old) :: rest =>
    if String.eqb key label then (key, samples) :: rest
    else (key, old) :: set label samples rest
end.

(** [recordMetric].  The array that [push] and [shift] change is the one
  the map holds, so the map entry changes with it.  The non-null
  assertion on [get] holds, the label having just been set; the last
  branch stands for it failing. *)
Definition recordMetric {Number : Type} (label : string) (value : Number)
(metrics : list (string * list Number)) : list (string * list Number) :=
let metrics :=
  if negb (has label metrics) then set label [] metrics else metrics in
match get label metrics with
| Some samples =>
    let samples := (samples ++ [value])%list in
    let samples :=
      if (MAX_SAMPLES <? List.length samples)%nat then List.tl samples
      else samples in
    set label samples metrics
| None => metrics
end.

(** [clearMetrics]. *)
Definition clearMetrics {Number : Type}
(metrics : list (string * list Number)) : list (string * list Number) := [].

End PerformanceMonitor.

(** [createBatcher].  The closure state is [batch] and [timeoutId]; beside
    it the embedding keeps what the closure acts on: the timeouts of the
    host that are set and neither run nor cleared, the next timer handle
    ([setTimeout] returns a fresh handle, which is truthy), the state
    [memory] the processor keeps for itself, the batches [processor] was
    called with, oldest first, and those of them it returned from.  [delay]
    only decides when the host runs the callback of a timeout, which the
    embedding leaves open. *)
Module Batcher.

(** A JavaScript number, as far as [>=] tells numbers apart: a finite
    number is a fraction; [maxBatchSize] when the caller leaves it out
    is [Finite 10 1]. *)
Inductive JsNumber : Type :=
| Finite (numerator : Z) (denominator : positive)
| PlusInfinity
| MinusInfinity
| NotANumber.

(** [length >= x] for the length of an array. *)
Definition lengthAtLeast (length : nat) (x : JsNumber) : bool :=
  match x with
  | Finite numerator denominator =>
      (numerator <=? Z.of_nat length * Z.pos denominator)%Z
  | PlusInfinity => false
  | MinusInfinity => true
  | NotANumber => false
  end.

(** How a call ends. *)
Inductive Completion : Type :=
| Returned
| Threw.

(** What a call of [processor] does, as far as the batcher is concerned:
    it returns, or throws, or calls the batcher with an item and goes on
    according to how that call ended.  The processor's own state is
    stored before each of these, and read again after a call: the calls
    of the processor that the batcher makes meanwhile may have changed
    it. *)
Inductive Processor (M T : Type) : Type :=
| Returns (s : M)
| Throws (s : M)
| Calls (s : M) (item : T) (next : Completion -> M -> Processor M T).

Arguments Returns {M T}.
Arguments Throws {M T}.
Arguments Calls {M T}.

Record State (M T : Type) : Type := mk {
  batch : list T;
  timeoutId : option nat;
  timers : list nat;
  nextTimer : nat;
  processed : list (list T);
  returned : list (list T);
  memory : M
}.

Arguments mk {M T}.
Arguments batch {M T}.
Arguments timeoutId {M T}.
Arguments timers {M T}.
Arguments nextTimer {M T}.
Arguments processed {M T}.
Arguments returned {M T}.
Arguments memory {M T}.

(** The state when [createBatcher] returns. *)
Definition init {M T : Type} (s : M) : State M T :=
  {| batch := []; timeoutId := None; timers := []; nextTimer := 1;
     processed := []; returned := []; memory := s |}.

(** [clearTimeout]. *)
Definition clearTimeout (id : nat) (timers : list nat) : list nat :=
  filter (fun t => negb (Nat.eqb t id)) timers.

(** A call that runs to its end gives the state it leaves and how it
    ended; [None] when the calls nest deeper than the embedding follows
    them. *)
Definition Run (M T : Type) : Type :=
  State M T -> option (State M T * Completion).

Section Closure.

Context {M T : Type}.
Variable processor : M -> list T -> Processor M T.
Variable maxBatchSize : JsNumber.

(** The function [createBatcher] returns, called with [item], given
    what [flush()] does. *)
Definition addWith (flush : Run M T) (item : T) : Run M T :=
  fun st =>
    let st :=
      {| batch := (batch st ++ [item])%list;
         timeoutId := timeoutId st;
         timers := timers st;
         nextTimer := nextTimer st;
         processed := processed st;
         returned := returned st;
         memory := memory st |} in
    if lengthAtLeast (List.length (batch st)) maxBatchSize then
      let st :=
        match timeoutId st with
        | Some id =>
            {| batch := batch st;
               timeoutId := None;
               timers := clearTimeout id (timers st);
               nextTimer := nextTimer st;
               processed := processed st;
               returned := returned st;
               memory := memory st |}
        | None => st
        end in
      flush st
    else
      match timeoutId st with
      | None =>
          Some ({| batch := batch st;
                   timeoutId := Some (nextTimer st);
                   timers := (timers st ++ [nextTimer st])%list;
                   nextTimer := S (nextTimer st);
                   processed := processed st;
                   returned := returned st;
                   memory := memory st |}, Returned)
      | Some _ => Some (st, Returned)
      end.

(** A call of [processor] runs, given what a call of the batcher
    does. *)
Fixpoint runProcessor (add : T -> Run M T) (p : Processor M T)
  (st : State M T) : option (State M T * Completion) :=
  let remember (s : M) :=
    {| batch := batch st;
       timeoutId := timeoutId st;
       timers := timers st;
       nextTimer := nextTimer st;
       processed := processed st;
       returned := returned st;
       memory := s |} in
  match p with
  | Returns s => Some (remember s, Returned)
  | Throws s => Some (remember s, Threw)
  | Calls s item next =>
      match add item (remember s) with
      | Some (st', completion) =>
          runProcessor add (next completion (memory st')) st'
      | None => None
      end
  end.

(** [flush].  [depth] bounds how deep the calls of [processor] may
    nest.  An exception of [processor] leaves [flush] before [batch]
    and [timeoutId] are reset. *)
Fixpoint flush (depth : nat) (st : State M T) {struct depth}
  : option (State M T * Completion) :=
  if (0 <? List.length (batch st))%nat then
    match depth with
    | O => None
    | S depth' =>
        let items := batch st in
        let st :=
          {| batch := batch st;
             timeoutId := timeoutId st;
             timers := timers st;
             nextTimer := nextTimer st;
             processed := (processed st ++ [items])%list;
             returned := returned st;
             memory := memory st |} in
        match runProcessor (addWith (flush depth'))
                (processor (memory st) items) st with
        | Some (st, Returned) =>
            Some ({| batch := [];
                     timeoutId := None;
                     timers := timers st;
                     nextTimer := nextTimer st;
                     processed := processed st;
                     returned := (returned st ++ [items])%list;
                     memory := memory st |}, Returned)
        | Some (st, Threw) => Some (st, Threw)
        | None => None
        end
    end
  else
    Some ({| batch := batch st;
             timeoutId := None;
             timers := timers st;
             nextTimer := nextTimer st;
             processed := processed st;
             returned := returned st;
             memory := memory st |}, Returned).

(** The function [createBatcher] returns, called with [item]. *)
Definition add (depth : nat) (item : T) : Run M T :=
  addWith (flush depth) item.

(** The host runs the callback of the timeout [id]: [flush], if the
    timeout is set and was not cleared. *)
Definition fire (depth : nat) (id : nat) : Run M T :=
  fun st =>
    if existsb (Nat.eqb id) (timers st) then
      flush depth {| batch := batch st;
                     timeoutId := timeoutId st;
                     timers := clearTimeout id (timers st);
                     nextTimer := nextTimer st;
                     processed := processed st;
                     returned := returned st;
                     memory := memory st |}
    else Some (st, Returned).

End Closure.

End Batcher.

(* ===================================================================== *)
(** * Vocabulary of the statements *)
(* ===================================================================== *)

(** [scripts.cmd] of a parsed package.json: the member [cmd] of its
    [scripts] member, when both are there and [scripts] is an object. *)
Definition scriptsEntry (packageJson : JSValue) (cmd : string) : option JSValue :=
  match getPropOptional (Some packageJson) "scripts" with
  | Some (JObject members) => lookupMember cmd members
  | _ => None
  end.

(** The path test of the detector. *)
Definition isPackageJson (f : FileContent.t) : bool :=
  endsWith (FileContent.path f) "package.json".

(** The examples write a JSON text with ['] where the text has a double
    quote. *)
Definition jsonText (s : string) : string := replaceChar "'" dq s.

(** A world for the examples: a counter. *)
Definition counterId (n : nat) : string * nat := (numberToString n, S n).
Definition counterDate (n : nat) : Z * nat := (Z.of_nat n, S n).


(** An action of an artifact block, and the text the commands message
    writes for it. *)
Inductive ActionKind : Type := ShellAction | StartAction.

Definition renderAction (action : ActionKind * string) : string :=
  match action with
  | (ShellAction, command) => nl ++ shellOpenTag ++ command ++ actionCloseTag
  | (StartAction, command) => nl ++ startOpenTag ++ command ++ actionCloseTag ++ nl
  end.

Fixpoint renderActions (actions : list (ActionKind * string)) : string :=
  match actions with
  | [] => EmptyString
  | action :: rest => renderAction action ++ renderActions rest
  end.

(** Every shell action comes before every start action. *)
Definition shellBeforeStart (actions : list (ActionKind * string)) : Prop :=
  forall i j setup start,
    nth_error actions i = Some (ShellAction, setup) ->
    nth_error actions j = Some (StartAction, start) ->
    i < j.

(** The path the importer gives a file: its [webkitRelativePath] without
    the first segment. *)
Definition relativePath (file : File.t) : string :=
  join "/" (slice1 (split "/" (File.webkitRelativePath file))).


(** The escaping both replacers apply to a tag. *)
Definition escapeTag (tag : string) : string :=
  replaceChar ">" "&gt;" (replaceChar "<" "&lt;" tag).

(** The replacer both escaping functions pass to [replace]. *)
Definition replacer (openTag content closeTag : string) : string :=
  let escapedOpenTag := replaceChar ">" "&gt;" (replaceChar "<" "&lt;" openTag) in
  let escapedCloseTag := replaceChar ">" "&gt;" (replaceChar "<" "&lt;" closeTag) in
  escapedOpenTag ++ content ++ escapedCloseTag.

(** A matched pair of the tag [name] begins at the head of [s]: an opening
    tag [<name ...>] whose attributes hold no ['>'], then any text, then
    the closing tag [</name>]. *)
Definition pairAtHead (name s : string) : Prop :=
  exists attrs body rest,
    charIn ">" attrs = false
    /\ s = ("<" ++ name ++ attrs ++ ">") ++ body ++ ("</" ++ name ++ ">") ++ rest.

(** No matched pair of the tag [name] begins anywhere in [s]. *)
Definition noPair (name s : string) : Prop :=
  forall before from, s = before ++ from -> ~ pairAtHead name from.

(** What it is for [escape] to work on matched pairs of [name] only.
    Either [s] has no matched pair and comes back unchanged; or [s] is
    [pre], an opening tag, [body], the closing tag and [rest], where no
    pair begins inside [pre], the closing tag is the next one after the
    opening tag (it begins nowhere inside [body]), and the result is [pre]
    unchanged, the two tags escaped around [body] unchanged, and [rest]
    escaped in the same way. *)
Definition escapesMatchedPairs (name : string) (escape : string -> string)
  (s : string) : Prop :=
  (noPair name s /\ escape s = s)
  \/ exists pre attrs body rest,
       let opening := "<" ++ name ++ attrs ++ ">" in
       let closing := "</" ++ name ++ ">" in
       s = pre ++ opening ++ body ++ closing ++ rest
       /\ charIn ">" attrs = false
       /\ (forall before from,
              pre = before ++ from -> from <> EmptyString ->
              ~ pairAtHead name (from ++ opening ++ body ++ closing ++ rest))
       /\ (forall before from,
              body = before ++ from -> from <> EmptyString ->
              startsWith (from ++ closing ++ rest) closing = false)
       /\ escape s
          = pre ++ escapeTag opening ++ body ++ escapeTag closing ++ escape rest.

(** Whether a text mentions one of the two reserved tags, opening or
    closing. *)
Definition mentionsBoltTag (t : string) : bool :=
  includes t "<boltAction" || includes t "</boltAction>"
  || includes t "<boltArtifact" || includes t "</boltArtifact>".

(** No occurrence of [pat] begins inside [a] when [a] is followed by [b]. *)
Definition noStart (pat a b : string) : Prop :=
  forall before from,
    a = before ++ from -> from <> EmptyString -> stripPrefix pat (from ++ b) = None.


(** The results the detector builds, by branch. *)
Definition nodeCommands (availableCommand : string) : ProjectCommands.t :=
  {| ProjectCommands.type := "Node.js";
     ProjectCommands.setupCommand := Some "npm install";
     ProjectCommands.startCommand := Some ("npm run " ++ availableCommand);
     ProjectCommands.followupMessage :=
       "🚀 Jimmyverse.dev workflow: Installing dependencies and starting "
       ++ availableCommand ++ " server for live preview...";
     ProjectCommands.autoStart := None |}.

Definition nodeFallbackCommands : ProjectCommands.t :=
  {| ProjectCommands.type := "Node.js";
     ProjectCommands.setupCommand := Some "npm install";
     ProjectCommands.startCommand := Some "npm start";
     ProjectCommands.followupMessage :=
       "📦 Installing dependencies and attempting to start the project...";
     ProjectCommands.autoStart := None |}.

Definition parseErrorCommands : ProjectCommands.t :=
  {| ProjectCommands.type := "Node.js";
     ProjectCommands.setupCommand := Some "npm install";
     ProjectCommands.startCommand := None;
     ProjectCommands.followupMessage :=
       "⚠️ Error parsing package.json, but installing dependencies anyway...";
     ProjectCommands.autoStart := None |}.

Definition staticCommands : ProjectCommands.t :=
  {| ProjectCommands.type := "Static";
     ProjectCommands.setupCommand := Some "npm install -g serve";
     ProjectCommands.startCommand := Some "npx --yes serve";
     ProjectCommands.followupMessage :=
       "🌐 Setting up static file server for live preview...";
     ProjectCommands.autoStart := None |}.

Definition unknownCommands : ProjectCommands.t :=
  {| ProjectCommands.type := "Unknown";
     ProjectCommands.setupCommand := Some "npm install";
     ProjectCommands.startCommand := None;
     ProjectCommands.followupMessage :=
       "🔧 Attempting to initialize project with npm...";
     ProjectCommands.autoStart := None |}.

(** A file the detector can react to: its path ends with one of the two
    marker names. *)
Definition isMarker (f : FileContent.t) : bool :=
  endsWith (FileContent.path f) "package.json"
  || endsWith (FileContent.path f) "index.html".

(** The values recorded for [label] by a sequence of [recordMetric]
    calls, oldest first. *)
Definition recordedFor {Number : Type} (label : string)
  (calls : list (string * Number)) : list Number :=
  map snd (filter (fun call => String.eqb (fst call) label) calls).

(** The metrics after a sequence of [recordMetric] calls. *)
Definition recordAll {Number : Type} (calls : list (string * Number))
  (metrics : list (string * list Number)) : list (string * list Number) :=
  fold_left (fun m call => PerformanceMonitor.recordMetric (fst call) (snd call) m)
            calls metrics.

(** The last [n] elements of a list. *)
Definition lastN {A : Type} (n : nat) (l : list A) : list A :=
  skipn (List.length l - n) l.

(** What happens to a batcher: a call with an item, or the host running
    the callback of a timeout. *)
Inductive BatcherEvent (T : Type) : Type :=
| AddItem (item : T)
| FireTimer (id : nat).

Arguments AddItem {T}.
Arguments FireTimer {T}.

(** One event; an exception goes to the caller, or to the host, and the
    batcher stays as the exception left it. *)
Definition batcherStep {M T : Type} (processor : M -> list T -> Batcher.Processor M T)
  (maxBatchSize : Batcher.JsNumber) (depth : nat)
  (st : option (Batcher.State M T)) (event : BatcherEvent T)
  : option (Batcher.State M T) :=
  match st with
  | Some st =>
      match event with
      | AddItem item =>
          option_map fst (Batcher.add processor maxBatchSize depth item st)
      | FireTimer id =>
          option_map fst (Batcher.fire processor maxBatchSize depth id st)
      end
  | None => None
  end.

(** The batcher after a sequence of events, from its initial state, with
    a processor whose own state begins as [s]. *)
Definition batcherRun {M T : Type} (processor : M -> list T -> Batcher.Processor M T)
  (maxBatchSize : Batcher.JsNumber) (depth : nat) (s : M)
  (events : list (BatcherEvent T)) : option (Batcher.State M T) :=
  fold_left (batcherStep processor maxBatchSize depth) events
    (Some (Batcher.init s)).

(** The items of the calls among the events, in order. *)
Fixpoint addedItems {T : Type} (events : list (BatcherEvent T)) : list T :=
  match events with
  | [] => []
  | AddItem item :: rest => item :: addedItems rest
  | FireTimer _ :: rest => addedItems rest
  end.

(** The processor never calls the batcher: it returns or throws. *)
Definition neverCalls {M T : Type}
  (processor : M -> list T -> Batcher.Processor M T) : Prop :=
  forall s items,
    exists s', processor s items = Batcher.Returns s'
               \/ processor s items = Batcher.Throws s'.

(** The processor returns from every call, and never calls the batcher. *)
Definition alwaysReturns {M T : Type}
  (processor : M -> list T -> Batcher.Processor M T) : Prop :=
  forall s items, exists s', processor s items = Batcher.Returns s'.

(** A processor that only returns. *)
Definition quietProcessor (s : unit) (items : list string)
  : Batcher.Processor unit string :=
  Batcher.Returns s.

(** A processor that throws whenever it is called. *)
Definition throwingProcessor (s : unit) (items : list string)
  : Batcher.Processor unit string :=
  Batcher.Throws s.

(** A processor that answers a batch of one item by calling the batcher
    with another item, and only returns from longer batches. *)
Definition reenteringProcessor (s : unit) (items : list string)
  : Batcher.Processor unit string :=
  match items with
  | [_] => Batcher.Calls s "again" (fun _ s' => Batcher.Returns s')
  | _ => Batcher.Returns s
  end.

(** The batches the processor returned from, followed by the waiting
    batch, are [items]. *)
Definition batcherKeeps {M T : Type} (items : list T) (st : Batcher.State M T) : Prop :=
  (concat (Batcher.returned st) ++ Batcher.batch st)%list = items.

(** What holds of a batcher whose processor always returns, after any
    events: the only timeout set is the one [timeoutId] names; a timeout
    is set exactly while items wait; the processed batches followed by the
    waiting batch are the items added, in order; the processor returned
    from every batch; a processed batch is not empty, and without its last
    item it was below [maxBatchSize]; the waiting batch is empty or below
    [maxBatchSize]. *)
Definition batcherInvariant {M T : Type} (maxBatchSize : Batcher.JsNumber)
  (items : list T) (st : Batcher.State M T) : Prop :=
  Batcher.timers st
  = match Batcher.timeoutId st with Some id => [id] | None => [] end
  /\ (Batcher.timeoutId st = None <-> Batcher.batch st = [])
  /\ (concat (Batcher.processed st) ++ Batcher.batch st)%list = items
  /\ Batcher.returned st = Batcher.processed st
  /\ Forall (fun b => b <> []
                      /\ (List.length b = 1
                          \/ Batcher.lengthAtLeast (List.length b - 1) maxBatchSize
                             = false))
            (Batcher.processed st)
  /\ (Batcher.batch st = []
      \/ Batcher.lengthAtLeast (List.length (Batcher.batch st)) maxBatchSize = false).
(* ===================================================================== *)
(** * Facts about strings *)
(* ===================================================================== *)

Lemma append_nil_r (s : string) : s ++ EmptyString = s.
Proof. induction s as [|c s IH]; simpl; [reflexivity | now rewrite IH]. Qed.

Lemma append_assoc (a b c : string) : (a ++ b) ++ c = a ++ (b ++ c).
Proof. induction a as [|x a IH]; simpl; [reflexivity | now rewrite IH]. Qed.

Lemma length_append (a b : string) :
  String.length (a ++ b) = String.length a + String.length b.
Proof. induction a as [|x a IH]; simpl; [reflexivity | now rewrite IH]. Qed.

Lemma stripPrefix_append (p r : string) : stripPrefix p (p ++ r) = Some r.
Proof.
  induction p as [|a p IH]; simpl; [reflexivity|].
  now rewrite Ascii.eqb_refl.
Qed.

Lemma stripPrefix_Some (p s r : string) :
  stripPrefix p s = Some r -> s = p ++ r.
Proof.
  revert s; induction p as [|a p IH]; intros s H; simpl in *.
  - now inversion H.
  - destruct s as [|b s]; [discriminate|].
    destruct (Ascii.eqb_spec a b) as [->|]; [|discriminate].
    now rewrite (IH _ H).
Qed.

Lemma startsWith_iff (s p : string) :
  startsWith s p = true <-> exists r, s = p ++ r.
Proof.
  unfold startsWith; split.
  - destruct (stripPrefix p s) as [r|] eqn:E; [|discriminate].
    intros _; exists r; now apply stripPrefix_Some.
  - intros [r ->]; now rewrite stripPrefix_append.
Qed.

Lemma includes_iff (s pat : string) :
  includes s pat = true <-> exists a b, s = a ++ pat ++ b.
Proof.
  split.
  - induction s as [|c s IH]; simpl; intros H.
    + rewrite orb_false_r in H. apply startsWith_iff in H as [r Hr].
      exists EmptyString, r; exact Hr.
    + apply orb_true_iff in H as [H|H].
      * apply startsWith_iff in H as [r Hr]. exists EmptyString, r; exact Hr.
      * destruct (IH H) as (a & b & ->). exists (String c a), b; reflexivity.
  - intros (a & b & ->). induction a as [|c a IH]; simpl.
    + destruct (pat ++ b) eqn:E; simpl.
      * rewrite orb_false_r. apply startsWith_iff; exists b; now rewrite E.
      * apply orb_true_iff; left. apply startsWith_iff; exists b; now rewrite E.
    + rewrite IH. apply orb_true_r.
Qed.

Lemma substring_skip (p s : string) (n m : nat) :
  substring (String.length p + n) m (p ++ s) = substring n m s.
Proof. induction p as [|c p IH]; simpl; [reflexivity | exact IH]. Qed.

Lemma substring_all (s : string) : substring 0 (String.length s) s = s.
Proof. induction s as [|c s IH]; simpl; [reflexivity | now rewrite IH]. Qed.

Lemma split_at (n : nat) (s : string) :
  n <= String.length s ->
  exists p r, s = p ++ r /\ String.length p = n.
Proof.
  revert s; induction n as [|n IH]; intros s H.
  - exists EmptyString, s; split; reflexivity.
  - destruct s as [|c s]; simpl in H; [lia|].
    destruct (IH s) as (p & r & -> & Hl); [lia|].
    exists (String c p), r; split; simpl; [reflexivity | now rewrite Hl].
Qed.

(** [endsWith] is the suffix relation. *)
Lemma endsWith_iff (s suffix : string) :
  endsWith s suffix = true <-> exists p, s = p ++ suffix.
Proof.
  unfold endsWith; split.
  - intros H. apply andb_true_iff in H as [Hlen Heq].
    apply Nat.leb_le in Hlen. apply String.eqb_eq in Heq.
    destruct (split_at (String.length s - String.length suffix) s) as (p & r & Hs & Hp);
      [lia|].
    exists p. rewrite Hs at 1. f_equal.
    assert (Hr : String.length r = String.length suffix).
    { apply (f_equal String.length) in Hs. rewrite length_append in Hs. lia. }
    rewrite <- Heq, <- Hp, Hs.
    rewrite <- (Nat.add_0_r (String.length p)), substring_skip, <- Hr.
    symmetry; apply substring_all.
  - intros [p ->]. apply andb_true_iff; split.
    + apply Nat.leb_le. rewrite length_append; lia.
    + apply String.eqb_eq.
      rewrite length_append.
      replace (String.length p + String.length suffix - String.length suffix)
        with (String.length p + 0) by lia.
      rewrite substring_skip. apply substring_all.
Qed.

(* ===================================================================== *)
(** * The detector *)
(* ===================================================================== *)

Section DetectorFacts.

Variable JSON_parse : string -> option JSValue.

(** The [scripts] object the detector inspects always answers a property
    read, with [scripts.cmd] of the parsed text. *)
Lemma scripts_getProp (packageJson : JSValue) (cmd : string) :
  getProp (orElse (getPropOptional (Some packageJson) "scripts")
                  (Some (JObject []))) cmd
  = Some (scriptsEntry packageJson cmd).
Proof.
  unfold scriptsEntry, orElse.
  destruct (getPropOptional (Some packageJson) "scripts") as [v|]; simpl;
    [|reflexivity].
  destruct v as [|b|m e|s| |]; simpl; try reflexivity.
  - now destruct b.
  - now destruct (negb (roundsToZero m e)).
  - now destruct (negb (s =? EmptyString)).
Qed.

(** So the callback of [find] never throws, and [find] returns the first
    preferred command whose entry is truthy. *)
Lemma findCommand_scripts (packageJson : JSValue) (cmds : list string) :
  findCommand (orElse (getPropOptional (Some packageJson) "scripts")
                      (Some (JObject []))) cmds
  = Some (find (fun cmd => truthy (scriptsEntry packageJson cmd)) cmds).
Proof.
  induction cmds as [|cmd rest IH]; simpl; [reflexivity|].
  rewrite scripts_getProp.
  destruct (truthy (scriptsEntry packageJson cmd)); [reflexivity | exact IH].
Qed.

Lemma hasFile_find (files : list FileContent.t) (name : string) :
  hasFile files name = true ->
  exists f, find (fun f => endsWith (FileContent.path f) name) files = Some f.
Proof.
  unfold hasFile. induction files as [|g files IH]; simpl; [discriminate|].
  destruct (endsWith (FileContent.path g) name); simpl.
  - intros _; now exists g.
  - exact IH.
Qed.

Lemma find_hasFile (files : list FileContent.t) (name : string) f :
  find (fun f => endsWith (FileContent.path f) name) files = Some f ->
  hasFile files name = true.
Proof.
  intros H. apply find_some in H as [Hin Hf].
  unfold hasFile. apply existsb_exists. now exists f.
Qed.

(** What the detector returns once the file it parses is known. *)
Lemma detect_first_package (files : list FileContent.t) (f : FileContent.t) :
  find isPackageJson files = Some f ->
  detectProjectCommands JSON_parse files =
    match detectFromPackageJson JSON_parse (FileContent.content f) with
    | Some commands => commands
    | None =>
        {| ProjectCommands.type := "Node.js";
           ProjectCommands.setupCommand := Some "npm install";
           ProjectCommands.startCommand := None;
           ProjectCommands.followupMessage :=
             "⚠️ Error parsing package.json, but installing dependencies anyway...";
           ProjectCommands.autoStart := None |}
    end.
Proof.
  intros H. unfold detectProjectCommands.
  rewrite (find_hasFile _ _ _ H).
  unfold isPackageJson in H. now rewrite H.
Qed.

Lemma detectFromPackageJson_parsed (text : string) (packageJson : JSValue) :
  JSON_parse text = Some packageJson ->
  detectFromPackageJson JSON_parse text =
    match find (fun cmd => truthy (scriptsEntry packageJson cmd)) preferredCommands with
    | Some availableCommand =>
        Some {|
          ProjectCommands.type := "Node.js";
          ProjectCommands.setupCommand := Some "npm install";
          ProjectCommands.startCommand := Some ("npm run " ++ availableCommand);
          ProjectCommands.followupMessage :=
            "🚀 Jimmyverse.dev workflow: Installing dependencies and starting "
            ++ availableCommand ++ " server for live preview...";
          ProjectCommands.autoStart := None
        |}
    | None =>
        Some {|
          ProjectCommands.type := "Node.js";
          ProjectCommands.setupCommand := Some "npm install";
          ProjectCommands.startCommand := Some "npm start";
          ProjectCommands.followupMessage :=
            "📦 Installing dependencies and attempting to start the project...";
          ProjectCommands.autoStart := None
        |}
    end.
Proof.
  intros H. unfold detectFromPackageJson. rewrite H.
  rewrite findCommand_scripts.
  now destruct (find _ preferredCommands).
Qed.

(** Every outcome of the [try] block is a Node.js project with
    [npm install] and a follow-up message that is not empty. *)
Lemma detectFromPackageJson_shape (text : string) (commands : ProjectCommands.t) :
  detectFromPackageJson JSON_parse text = Some commands ->
  ProjectCommands.type commands = "Node.js"
  /\ ProjectCommands.setupCommand commands = Some "npm install"
  /\ ProjectCommands.followupMessage commands <> EmptyString
  /\ exists start, ProjectCommands.startCommand commands = Some start.
Proof.
  unfold detectFromPackageJson.
  destruct (JSON_parse text) as [j|]; [|discriminate].
  rewrite findCommand_scripts.
  destruct (find _ preferredCommands) as [cmd|]; intros H; inversion H; subst;
    simpl; repeat split; try discriminate; eauto.
Qed.

End DetectorFacts.

(** Fields of the result once the parsed text is known. *)
Lemma detect_parsed (JSON_parse : string -> option JSValue)
  (files : list FileContent.t) (f : FileContent.t) (packageJson : JSValue) :
  find isPackageJson files = Some f ->
  JSON_parse (FileContent.content f) = Some packageJson ->
  let commands := detectProjectCommands JSON_parse files in
  ProjectCommands.type commands = "Node.js"
  /\ ProjectCommands.setupCommand commands = Some "npm install"
  /\ ProjectCommands.startCommand commands =
       Some match find (fun cmd => truthy (scriptsEntry packageJson cmd))
                       preferredCommands with
            | Some availableCommand => "npm run " ++ availableCommand
            | None => "npm start"
            end.
Proof.
  intros Hf Hj. cbv zeta.
  rewrite (detect_first_package _ _ _ Hf).
  rewrite (detectFromPackageJson_parsed _ _ _ Hj).
  now destruct (find _ preferredCommands).
Qed.

(** C2, as amended: when the first file in list order whose path ends with
    "package.json" parses as JSON, the start command follows the first of
    dev, start, preview whose scripts entry is truthy: "npm run dev" as
    soon as scripts.dev is truthy, whatever scripts.start and
    scripts.preview are; "npm run start" when scripts.dev is falsy and
    scripts.start truthy; "npm run preview" when only scripts.preview is
    truthy. *)
Theorem detect_dev_start_preview_priority
  (JSON_parse : string -> option JSValue)
  (files : list FileContent.t) (f : FileContent.t) (packageJson : JSValue) :
  find isPackageJson files = Some f ->
  JSON_parse (FileContent.content f) = Some packageJson ->
  let start := ProjectCommands.startCommand (detectProjectCommands JSON_parse files) in
  let entry := fun cmd => truthy (scriptsEntry packageJson cmd) in
  (entry "dev" = true -> start = Some "npm run dev")
  /\ (entry "dev" = false -> entry "start" = true -> start = Some "npm run start")
  /\ (entry "dev" = false -> entry "start" = false -> entry "preview" = true ->
      start = Some "npm run preview").
Proof.
  intros Hf Hj start entry.
  destruct (detect_parsed _ _ _ _ Hf Hj) as (_ & _ & Hs).
  subst start entry; cbv beta. rewrite Hs; simpl.
  repeat split; intros; repeat (match goal with H : truthy _ = _ |- _ => rewrite H; clear H end);
    reflexivity.
Qed.

(** Witness of C2: a package.json with all three scripts. *)
Lemma detect_dev_start_preview_priority_witness :
  ProjectCommands.startCommand
    (detectProjectCommands parseJSON
       [ {| FileContent.content :=
              jsonText "{'scripts':{'dev':'vite','start':'node server.js','preview':'vite preview'}}";
            FileContent.path := "package.json" |} ])
  = Some "npm run dev".
Proof.
  set (f := {| FileContent.content := _; FileContent.path := _ |}).
  set (packageJson :=
         JObject [("scripts",
           JObject [("dev", JString "vite"); ("start", JString "node server.js");
                    ("preview", JString "vite preview")])]).
  assert (Hf : find isPackageJson [f] = Some f) by (vm_compute; reflexivity).
  assert (Hj : parseJSON (FileContent.content f) = Some packageJson)
    by (vm_compute; reflexivity).
  assert (Hdev : truthy (scriptsEntry packageJson "dev") = true)
    by (vm_compute; reflexivity).
  exact (proj1 (detect_dev_start_preview_priority parseJSON [f] f packageJson Hf Hj) Hdev).
Defined.

(** Counterexample to C2 as stated.  First list: one package.json whose
    scripts.dev entry is present but is the empty string; the detector
    starts [start].  Second list: two package.json files, the second with a
    dev script; the detector reads only the first. *)
Lemma detect_dev_priority_counterexample :
  let emptyDev :=
    {| FileContent.content :=
         jsonText "{'scripts':{'dev':'','start':'node server.js','preview':'vite preview'}}";
       FileContent.path := "package.json" |} in
  let docs :=
    {| FileContent.content := jsonText "{'scripts':{'start':'docusaurus start'}}";
       FileContent.path := "docs/package.json" |} in
  let root :=
    {| FileContent.content := jsonText "{'scripts':{'dev':'vite'}}";
       FileContent.path := "package.json" |} in
  ((exists packageJson,
       parseJSON (FileContent.content emptyDev) = Some packageJson
       /\ scriptsEntry packageJson "dev" = Some (JString EmptyString))
   /\ ProjectCommands.startCommand (detectProjectCommands parseJSON [emptyDev])
      = Some "npm run start")
  /\
  ((exists packageJson,
       parseJSON (FileContent.content root) = Some packageJson
       /\ scriptsEntry packageJson "dev" = Some (JString "vite"))
   /\ ProjectCommands.startCommand (detectProjectCommands parseJSON [docs; root])
      = Some "npm run start").
Proof.
  cbv zeta. split; split.
  - eexists; split; vm_compute; reflexivity.
  - vm_compute; reflexivity.
  - eexists; split; vm_compute; reflexivity.
  - vm_compute; reflexivity.
Qed.

(** C3, as amended: when the content of the first file in list order whose
    path ends with "package.json" is malformed JSON, the detector returns
    (it has no failing outcome) type "Node.js", setup command
    "npm install", no start command and the warning follow-up message. *)
Theorem detect_malformed_package_json
  (JSON_parse : string -> option JSValue)
  (files : list FileContent.t) (f : FileContent.t) :
  find isPackageJson files = Some f ->
  JSON_parse (FileContent.content f) = None ->
  let commands := detectProjectCommands JSON_parse files in
  ProjectCommands.type commands = "Node.js"
  /\ ProjectCommands.setupCommand commands = Some "npm install"
  /\ ProjectCommands.startCommand commands = None
  /\ ProjectCommands.followupMessage commands
     = "⚠️ Error parsing package.json, but installing dependencies anyway...".
Proof.
  intros Hf Hj. cbv zeta.
  rewrite (detect_first_package _ _ _ Hf).
  unfold detectFromPackageJson. rewrite Hj. repeat split.
Qed.

(** Witness of C3: a package.json cut short. *)
Lemma detect_malformed_package_json_witness :
  let files :=
    [ {| FileContent.content := jsonText "{'scripts':{'dev':'vite'}";
         FileContent.path := "package.json" |} ] in
  ProjectCommands.startCommand (detectProjectCommands parseJSON files) = None.
Proof.
  cbv zeta.
  set (f := {| FileContent.content := _; FileContent.path := _ |}).
  assert (Hf : find isPackageJson [f] = Some f) by (vm_compute; reflexivity).
  assert (Hj : parseJSON (FileContent.content f) = None) by (vm_compute; reflexivity).
  exact (proj1 (proj2 (proj2 (detect_malformed_package_json parseJSON [f] f Hf Hj)))).
Defined.

(** Counterexample to C3 as stated: the list contains a package.json whose
    content is malformed, but it is not the first one, and the result has
    a start command. *)
Lemma detect_malformed_counterexample :
  let root :=
    {| FileContent.content := "{}"; FileContent.path := "package.json" |} in
  let nested :=
    {| FileContent.content := "{"; FileContent.path := "sub/package.json" |} in
  parseJSON (FileContent.content nested) = None
  /\ In nested [root; nested]
  /\ ProjectCommands.startCommand (detectProjectCommands parseJSON [root; nested])
     = Some "npm start".
Proof.
  cbv zeta. split; [|split].
  - vm_compute; reflexivity.
  - simpl; auto.
  - vm_compute; reflexivity.
Qed.

(** C8, as amended: when the first file in list order whose path ends with
    "package.json" parses as JSON and its scripts have no truthy entry
    under dev, start or preview (in particular when none of the three keys
    is there), the detector returns type "Node.js", setup command
    "npm install" and the fixed start command "npm start". *)
Theorem detect_no_matching_script
  (JSON_parse : string -> option JSValue)
  (files : list FileContent.t) (f : FileContent.t) (packageJson : JSValue) :
  find isPackageJson files = Some f ->
  JSON_parse (FileContent.content f) = Some packageJson ->
  (forall cmd, In cmd preferredCommands ->
               truthy (scriptsEntry packageJson cmd) = false) ->
  let commands := detectProjectCommands JSON_parse files in
  ProjectCommands.type commands = "Node.js"
  /\ ProjectCommands.setupCommand commands = Some "npm install"
  /\ ProjectCommands.startCommand commands = Some "npm start".
Proof.
  intros Hf Hj Hnone. cbv zeta.
  destruct (detect_parsed _ _ _ _ Hf Hj) as (Ht & Hsetup & Hs).
  repeat split; try assumption.
  rewrite Hs.
  destruct (find _ preferredCommands) as [cmd|] eqn:E; [|reflexivity].
  apply find_some in E as [Hin Htrue].
  rewrite (Hnone _ Hin) in Htrue. discriminate.
Qed.

(** Witness of C8: a package.json with a build script only. *)
Lemma detect_no_matching_script_witness :
  let files :=
    [ {| FileContent.content := jsonText "{'name':'lib','scripts':{'build':'tsc'}}";
         FileContent.path := "package.json" |} ] in
  ProjectCommands.startCommand (detectProjectCommands parseJSON files)
  = Some "npm start".
Proof.
  cbv zeta.
  set (f := {| FileContent.content := _; FileContent.path := _ |}).
  set (packageJson :=
         JObject [("name", JString "lib");
                  ("scripts", JObject [("build", JString "tsc")])]).
  assert (Hf : find isPackageJson [f] = Some f) by (vm_compute; reflexivity).
  assert (Hj : parseJSON (FileContent.content f) = Some packageJson)
    by (vm_compute; reflexivity).
  assert (Hnone : forall cmd, In cmd preferredCommands ->
                              truthy (scriptsEntry packageJson cmd) = false)
    by (intros cmd [<-|[<-|[<-|[]]]]; vm_compute; reflexivity).
  exact (proj2 (proj2 (detect_no_matching_script parseJSON [f] f packageJson Hf Hj Hnone))).
Defined.

(** Counterexample to C8 as stated: the list contains a package.json that
    parses and has none of the three keys, but it is not the first one,
    and the start command is not "npm start". *)
Lemma detect_no_matching_script_counterexample :
  let root :=
    {| FileContent.content := jsonText "{'scripts':{'dev':'vite'}}";
       FileContent.path := "package.json" |} in
  let tools :=
    {| FileContent.content := jsonText "{'scripts':{'build':'tsc'}}";
       FileContent.path := "tools/package.json" |} in
  (exists packageJson,
      parseJSON (FileContent.content tools) = Some packageJson
      /\ forall cmd, In cmd preferredCommands -> scriptsEntry packageJson cmd = None)
  /\ In tools [root; tools]
  /\ ProjectCommands.startCommand (detectProjectCommands parseJSON [root; tools])
     = Some "npm run dev".
Proof.
  cbv zeta. split; [|split].
  - eexists; split; [vm_compute; reflexivity|].
    intros cmd [<-|[<-|[<-|[]]]]; reflexivity.
  - simpl; auto.
  - vm_compute; reflexivity.
Qed.

(** C9: whatever the file list, the follow-up message of the result is not
    the empty string. *)
Theorem detect_followupMessage_nonempty
  (JSON_parse : string -> option JSValue) (files : list FileContent.t) :
  ProjectCommands.followupMessage (detectProjectCommands JSON_parse files) <> EmptyString.
Proof.
  unfold detectProjectCommands.
  destruct (hasFile files "package.json").
  - destruct (find _ files) as [f|]; [|discriminate].
    destruct (detectFromPackageJson JSON_parse (FileContent.content f)) as [c|] eqn:E;
      [|discriminate].
    now apply detectFromPackageJson_shape in E.
  - destruct (hasFile files "index.html"); discriminate.
Qed.

(** [hasFile] asks for a path with the given suffix. *)
Lemma hasFile_iff (files : list FileContent.t) (name : string) :
  hasFile files name = true
  <-> exists f prefix, In f files /\ FileContent.path f = prefix ++ name.
Proof.
  unfold hasFile. rewrite existsb_exists. split.
  - intros (f & Hin & Hends). apply endsWith_iff in Hends as [prefix Hp].
    now exists f, prefix.
  - intros (f & prefix & Hin & Hp). exists f; split; [assumption|].
    apply endsWith_iff. now exists prefix.
Qed.

Lemma detect_type_node (JSON_parse : string -> option JSValue)
  (files : list FileContent.t) (f : FileContent.t) :
  find isPackageJson files = Some f ->
  ProjectCommands.type (detectProjectCommands JSON_parse files) = "Node.js".
Proof.
  intros Hf. rewrite (detect_first_package _ _ _ Hf).
  destruct (detectFromPackageJson JSON_parse (FileContent.content f)) as [c|] eqn:E;
    [|reflexivity].
  now apply detectFromPackageJson_shape in E.
Qed.

Lemma find_first (files before rest : list FileContent.t) (f : FileContent.t) :
  files = (before ++ f :: rest)%list ->
  (forall g, In g before -> isPackageJson g = false) ->
  isPackageJson f = true ->
  find isPackageJson files = Some f.
Proof.
  intros -> Hbefore Hf. induction before as [|g before IH]; simpl.
  - now rewrite Hf.
  - rewrite (Hbefore g (or_introl eq_refl)). apply IH.
    intros h Hh. apply Hbefore. now right.
Qed.

(** C10: the detector recognises its marker files by path suffix.  The
    result is a Node.js project exactly when some path ends with
    "package.json"; the file parsed is the first such file in list order
    (the result is the one for that file alone); the result is a Static
    project exactly when no path ends with "package.json" and some path
    ends with "index.html"; so "sub/package.json" and "my-package.json"
    select the Node.js branch and "site/index.html" the Static one. *)
Theorem detect_by_path_suffix
  (JSON_parse : string -> option JSValue) (files : list FileContent.t) :
  let hasSuffix := fun name =>
    exists f prefix, In f files /\ FileContent.path f = prefix ++ name in
  (ProjectCommands.type (detectProjectCommands JSON_parse files) = "Node.js"
   <-> hasSuffix "package.json")
  /\ (forall before f rest,
         files = (before ++ f :: rest)%list ->
         (forall g, In g before -> endsWith (FileContent.path g) "package.json" = false) ->
         endsWith (FileContent.path f) "package.json" = true ->
         detectProjectCommands JSON_parse files = detectProjectCommands JSON_parse [f])
  /\ (ProjectCommands.type (detectProjectCommands JSON_parse files) = "Static"
      <-> ~ hasSuffix "package.json" /\ hasSuffix "index.html")
  /\ (forall text,
         ProjectCommands.type
           (detectProjectCommands JSON_parse
              [ {| FileContent.content := text; FileContent.path := "sub/package.json" |} ])
         = "Node.js"
         /\ ProjectCommands.type
              (detectProjectCommands JSON_parse
                 [ {| FileContent.content := text; FileContent.path := "my-package.json" |} ])
            = "Node.js"
         /\ ProjectCommands.type
              (detectProjectCommands JSON_parse
                 [ {| FileContent.content := text; FileContent.path := "site/index.html" |} ])
            = "Static").
Proof.
  cbv zeta. split; [|split; [|split]].
  - rewrite <- hasFile_iff. split.
    + unfold detectProjectCommands.
      destruct (hasFile files "package.json"); [intros _; reflexivity|].
      destruct (hasFile files "index.html"); simpl; intros H; discriminate H.
    + intros H. apply hasFile_find in H as [f Hf].
      now apply (detect_type_node _ _ f).
  - intros before f rest Hfiles Hbefore Hf.
    rewrite (detect_first_package JSON_parse files f)
      by now apply (find_first files before rest).
    rewrite (detect_first_package JSON_parse [f] f); [reflexivity|].
    simpl. unfold isPackageJson. now rewrite Hf.
  - rewrite <- !hasFile_iff. split.
    + intros H. destruct (hasFile files "package.json") eqn:E.
      * apply hasFile_find in E as [f Hf].
        rewrite (detect_type_node _ _ f Hf) in H. discriminate.
      * split; [discriminate|].
        unfold detectProjectCommands in H. rewrite E in H.
        destruct (hasFile files "index.html"); [reflexivity | discriminate].
    + intros [Hno Hyes]. unfold detectProjectCommands.
      destruct (hasFile files "package.json"); [now elim Hno|].
      now rewrite Hyes.
  - intros text. split; [|split].
    + now apply (detect_type_node _ _ {| FileContent.content := text;
                                          FileContent.path := "sub/package.json" |}).
    + now apply (detect_type_node _ _ {| FileContent.content := text;
                                          FileContent.path := "my-package.json" |}).
    + reflexivity.
Qed.

(** Witness of C10: a nested package.json after a file that does not
    match; the detector reads the nested file. *)
Lemma detect_by_path_suffix_witness :
  let readme := {| FileContent.content := "# demo"; FileContent.path := "README.md" |} in
  let nested :=
    {| FileContent.content := jsonText "{'scripts':{'preview':'vite preview'}}";
       FileContent.path := "app/package.json" |} in
  let root := {| FileContent.content := "{}"; FileContent.path := "package.json" |} in
  detectProjectCommands parseJSON [readme; nested; root]
  = detectProjectCommands parseJSON [nested].
Proof.
  cbv zeta.
  set (readme := {| FileContent.content := "# demo"; FileContent.path := _ |}).
  set (nested := {| FileContent.content := jsonText _; FileContent.path := _ |}).
  set (root := {| FileContent.content := "{}"; FileContent.path := _ |}).
  assert (Hbefore : forall g, In g [readme] ->
                      endsWith (FileContent.path g) "package.json" = false)
    by (intros g [<-|[]]; vm_compute; reflexivity).
  assert (Hnested : endsWith (FileContent.path nested) "package.json" = true)
    by (vm_compute; reflexivity).
  exact (proj1 (proj2 (detect_by_path_suffix parseJSON [readme; nested; root]))
           [readme] nested [root] eq_refl Hbefore Hnested).
Defined.

(* ===================================================================== *)
(** * The commands message *)
(* ===================================================================== *)

(** [commandString] is one of four action lists, written out. *)
Lemma commandString_actions (commands : ProjectCommands.t) :
  let setup := ProjectCommands.setupCommand commands in
  let start := ProjectCommands.startCommand commands in
  commandString commands =
    renderActions
      match truthyString setup, truthyString start with
      | true, true => [(ShellAction, interpolate setup); (StartAction, interpolate start)]
      | true, false => [(ShellAction, interpolate setup)]
      | false, true => [(StartAction, interpolate start)]
      | false, false => [(ShellAction, "npm install"); (StartAction, "npm run dev")]
      end.
Proof.
  cbv zeta. unfold commandString.
  destruct (truthyString (ProjectCommands.setupCommand commands));
    destruct (truthyString (ProjectCommands.startCommand commands)); simpl.
  - now rewrite !append_nil_r.
  - now rewrite !append_nil_r.
  - now rewrite !append_nil_r.
  - reflexivity.
Qed.

Lemma truthyString_Some (o : option string) (s : string) :
  o = Some s -> s <> EmptyString -> truthyString o = true /\ interpolate o = s.
Proof.
  intros -> Hs. simpl. split; [|reflexivity].
  destruct (String.eqb_spec s EmptyString); [contradiction | reflexivity].
Qed.

(** C4: [createCommandsMessage] always returns a message, never [null];
    the artifact block of its content holds a list of actions that is not
    empty; a shell action comes before a start action whenever both are
    there; the setup command, when there is one, is among the shell
    actions and the start command among the start actions; and with
    neither command the actions are the default pair, shell "npm install"
    then start "npm run dev". *)
Theorem createCommandsMessage_actions
  (World : Type) (generateId : World -> string * World)
  (newDate : World -> Z * World)
  (commands : ProjectCommands.t) (w : World) :
  exists (message : Message.t) (intro : string) (actions : list (ActionKind * string)),
    fst (createCommandsMessage World generateId newDate commands w) = Some message
    /\ Message.role message = Message.assistant
    /\ Message.content message
       = intro ++ setupArtifactOpenTag ++ nl
           ++ renderActions actions ++ nl ++ "</boltArtifact>"
    /\ actions <> []
    /\ shellBeforeStart actions
    /\ (forall setup, ProjectCommands.setupCommand commands = Some setup ->
                      setup <> EmptyString -> In (ShellAction, setup) actions)
    /\ (forall start, ProjectCommands.startCommand commands = Some start ->
                      start <> EmptyString -> In (StartAction, start) actions)
    /\ (truthyString (ProjectCommands.setupCommand commands) = false ->
        truthyString (ProjectCommands.startCommand commands) = false ->
        actions = [(ShellAction, "npm install"); (StartAction, "npm run dev")]).
Proof.
  pose proof (commandString_actions commands) as Hactions. cbv zeta in Hactions.
  eexists.
  exists (nl ++ (if negb (String.eqb (ProjectCommands.followupMessage commands) EmptyString)
                 then nl ++ nl ++ ProjectCommands.followupMessage commands
                 else "🚀 Jimmyverse.dev: Setting up your project with live preview...")
             ++ nl).
  eexists.
  split; [reflexivity|]. split; [reflexivity|].
  split.
  { simpl Message.content. unfold commandsContent. rewrite Hactions.
    symmetry. rewrite append_assoc. f_equal. apply append_assoc. }
  destruct (truthyString (ProjectCommands.setupCommand commands)) eqn:Hsetup;
    destruct (truthyString (ProjectCommands.startCommand commands)) eqn:Hstart.
  all: split; [discriminate|].
  all: split;
    [ intros [|[|i]] [|[|j]] s t Hi Hj; simpl in Hi, Hj;
      try discriminate; try lia;
      try (destruct i; discriminate); try (destruct j; discriminate)
    | ].
  all: split;
    [ intros s Hs Hne; destruct (truthyString_Some _ _ Hs Hne) as [Ht Hi];
      try congruence; rewrite Hi; simpl; auto
    | ].
  all: split;
    [ intros s Hs Hne; destruct (truthyString_Some _ _ Hs Hne) as [Ht Hi];
      try congruence; rewrite Hi; simpl; auto
    | ].
  all: intros; try discriminate; reflexivity.
Qed.

(** Witness of C4: no commands at all; the default pair is written. *)
Lemma createCommandsMessage_actions_witness :
  let commands :=
    {| ProjectCommands.type := "Unknown";
       ProjectCommands.setupCommand := None;
       ProjectCommands.startCommand := Some EmptyString;
       ProjectCommands.followupMessage := EmptyString;
       ProjectCommands.autoStart := None |} in
  exists message intro,
    fst (createCommandsMessage nat counterId counterDate commands 0) = Some message
    /\ Message.content message
       = intro ++ setupArtifactOpenTag ++ nl
           ++ renderActions [(ShellAction, "npm install"); (StartAction, "npm run dev")]
           ++ nl ++ "</boltArtifact>".
Proof.
  cbv zeta.
  destruct (createCommandsMessage_actions nat counterId counterDate
              {| ProjectCommands.type := "Unknown";
                 ProjectCommands.setupCommand := None;
                 ProjectCommands.startCommand := Some EmptyString;
                 ProjectCommands.followupMessage := EmptyString;
                 ProjectCommands.autoStart := None |} 0)
    as (message & intro & actions & Hm & _ & Hc & _ & _ & _ & _ & Hdefault).
  exists message, intro. split; [exact Hm|].
  rewrite Hc, (Hdefault eq_refl eq_refl). reflexivity.
Defined.

(* ===================================================================== *)
(** * The folder import *)
(* ===================================================================== *)

Lemma includes_middle (a pat b : string) : includes (a ++ pat ++ b) pat = true.
Proof. apply includes_iff. now exists a, b. Qed.


(** When every file is read, [Promise.all] delivers one artifact per
    file, in order. *)
Lemma promiseAll_readFile (files : list File.t) :
  Forall (fun file => File.readAsText file <> None) files ->
  exists fileArtifacts,
    promiseAll (map readFile files) = Some fileArtifacts
    /\ forall file text,
         In file files -> File.readAsText file = Some text ->
         In {| FileContent.content := text;
               FileContent.path := relativePath file |} fileArtifacts.
Proof.
  induction 1 as [|file files Hfile _ IH].
  - exists []; split; [reflexivity | intros ? ? []].
  - destruct IH as (arts & Hall & Hin).
    destruct (File.readAsText file) as [text|] eqn:Htext; [|now elim Hfile].
    exists ({| FileContent.content := text; FileContent.path := relativePath file |} :: arts).
    split.
    + simpl. unfold readFile at 1. rewrite Htext, Hall. reflexivity.
    + intros file' text' [<-|Hin'] Htext'.
      * left. congruence.
      * right. now apply Hin.
Qed.

(** The sibling [createCommandActionsString] writes both actions whatever
    the commands are: each command has a default of its own. *)
Lemma createCommandActionsString_both (commands : ProjectCommands.t) :
  includes (createCommandActionsString commands) shellOpenTag = true
  /\ includes (createCommandActionsString commands) startOpenTag = true.
Proof.
  unfold createCommandActionsString. cbv zeta. split; apply includes_iff.
  - exists nl. eexists. simpl append at 1. rewrite !append_assoc. reflexivity.
  - exists (nl ++ shellOpenTag
              ++ orDefault (ProjectCommands.setupCommand commands) "npm install"
              ++ actionCloseTag ++ nl).
    eexists. simpl append at 1. rewrite !append_assoc. reflexivity.
Qed.

(** The second call of [createCommandsMessage] in [createChatFromFolder],
    the one that carries the start command "npm run dev", is never
    reached: the first call always returns a message. *)
Lemma createCommandsMessage_not_null
  (World : Type) (generateId : World -> string * World)
  (newDate : World -> Z * World)
  (commands : ProjectCommands.t) (w : World) :
  fst (createCommandsMessage World generateId newDate commands w) <> None.
Proof. discriminate. Qed.

(** C1 at the empty file list: four messages come back, none of them
    [null], and the last one holds the shell action and no start action. *)
Theorem createChatFromFolder_empty
  (JSON_parse : string -> option JSValue)
  (World : Type) (generateId : World -> string * World)
  (newDate : World -> Z * World)
  (binaryFiles : list string) (folderName : string) (w : World) :
  exists m1 m2 m3 m4,
    fst (createChatFromFolder JSON_parse World generateId newDate
           [] binaryFiles folderName w)
    = Some [Some m1; Some m2; Some m3; Some m4]
    /\ Message.content m4
       = nl ++ nl ++ nl ++ "🔧 Attempting to initialize project with npm..." ++ nl
           ++ setupArtifactOpenTag ++ nl
           ++ renderActions [(ShellAction, "npm install")] ++ nl ++ "</boltArtifact>"
    /\ includes (Message.content m4) shellOpenTag = true
    /\ includes (Message.content m4) startOpenTag = false
    /\ includes (Message.content m4) "start" = false.
Proof.
  do 4 eexists. split; [reflexivity|].
  repeat split; vm_compute; reflexivity.
Qed.

(** When a file cannot be read, [Promise.all] is rejected. *)
Lemma promiseAll_rejected (files : list File.t) :
  Exists (fun file => File.readAsText file = None) files ->
  promiseAll (map readFile files) = None.
Proof.
  induction 1 as [file files Hfile | file files _ IH]; simpl.
  - unfold readFile. now rewrite Hfile.
  - destruct (readFile file); [|reflexivity]. now rewrite IH.
Qed.

Lemma readable_or_not (files : list File.t) :
  Forall (fun file => File.readAsText file <> None) files
  \/ Exists (fun file => File.readAsText file = None) files.
Proof.
  induction files as [|file files [IH|IH]].
  - left; constructor.
  - destruct (File.readAsText file) eqn:E.
    + left; constructor; [congruence | assumption].
    + right; now constructor.
  - right; now constructor 2.
Qed.



(* ===================================================================== *)
(** * The tag patterns *)
(* ===================================================================== *)

Lemma scanToGt_Some (s attrs rest : string) :
  scanToGt s = Some (attrs, rest) ->
  s = attrs ++ ">" ++ rest /\ charIn ">" attrs = false.
Proof.
  revert attrs; induction s as [|c s IH]; intros attrs H; simpl in H; [discriminate|].
  destruct (Ascii.eqb_spec c ">") as [->|Hc].
  - inversion H; subst. split; reflexivity.
  - destruct (scanToGt s) as [[run r]|]; [|discriminate].
    inversion H; subst. destruct (IH run eq_refl) as [-> Hrun].
    split; [reflexivity|]. simpl. rewrite Hrun.
    destruct (Ascii.eqb_spec c ">"); [contradiction | reflexivity].
Qed.

Lemma scanToGt_complete (attrs rest : string) :
  charIn ">" attrs = false ->
  scanToGt (attrs ++ ">" ++ rest) = Some (attrs, rest).
Proof.
  induction attrs as [|c attrs IH]; simpl; intros H; [reflexivity|].
  apply orb_false_iff in H as [Hc Hrest].
  specialize (IH Hrest). simpl in IH.
  rewrite Hc, IH. reflexivity.
Qed.

Lemma scanToClose_Some (close s body rest : string) :
  scanToClose close s = Some (body, rest) ->
  s = body ++ close ++ rest
  /\ forall before from,
       body = before ++ from -> from <> EmptyString ->
       stripPrefix close (from ++ close ++ rest) = None.
Proof.
  revert body; induction s as [|c s IH]; intros body H.
  - simpl in H. destruct (stripPrefix close EmptyString) as [r|] eqn:E; [|discriminate].
    inversion H; subst. split.
    + now apply stripPrefix_Some in E.
    + intros [|x before] from Hb Hne; simpl in Hb; [congruence | discriminate].
  - simpl in H. destruct (stripPrefix close (String c s)) as [r|] eqn:E.
    + inversion H; subst. split.
      * now apply stripPrefix_Some in E.
      * intros [|x before] from Hb Hne; simpl in Hb; [congruence | discriminate].
    + destruct (scanToClose close s) as [[b r]|]; [|discriminate].
      inversion H; subst. destruct (IH b eq_refl) as [Hs Hfirst].
      split; [simpl; now rewrite Hs|].
      intros [|x before] from Hb Hne; simpl in Hb.
      * subst from. simpl. rewrite <- Hs. exact E.
      * inversion Hb; subst. now apply (Hfirst before).
Qed.

Lemma scanToClose_complete (close body rest : string) :
  exists body' rest', scanToClose close (body ++ close ++ rest) = Some (body', rest').
Proof.
  induction body as [|c body (b & r & IH)]; simpl.
  - assert (H : scanToClose close (close ++ rest) = Some (EmptyString, rest)).
    { destruct (close ++ rest) eqn:E; simpl; rewrite <- E, stripPrefix_append;
        reflexivity. }
    eauto.
  - destruct (stripPrefix close (String c (body ++ close ++ rest))); [eauto|].
    rewrite IH. eauto.
Qed.

Lemma opening_assoc (name attrs r : string) :
  ("<" ++ name) ++ attrs ++ ">" ++ r = ("<" ++ name ++ attrs ++ ">") ++ r.
Proof. simpl. f_equal. now rewrite !append_assoc. Qed.

(** A match is a matched pair at the head, with the closing tag that comes
    first. *)
Lemma matchTagAt_Some (name s : string) (m : TagMatch) :
  matchTagAt name s = Some m ->
  exists attrs,
    openTag m = "<" ++ name ++ attrs ++ ">"
    /\ closeTag m = "</" ++ name ++ ">"
    /\ charIn ">" attrs = false
    /\ s = openTag m ++ content m ++ closeTag m ++ after m
    /\ forall before from,
         content m = before ++ from -> from <> EmptyString ->
         startsWith (from ++ closeTag m ++ after m) (closeTag m) = false.
Proof.
  unfold matchTagAt.
  destruct (stripPrefix ("<" ++ name) s) as [s1|] eqn:E1; [|discriminate].
  destruct (scanToGt s1) as [[attrs s2]|] eqn:E2; [|discriminate].
  destruct (scanToClose ("</" ++ name ++ ">") s2) as [[body s3]|] eqn:E3; [|discriminate].
  intros H; inversion H; subst; clear H; cbn [openTag content closeTag after].
  apply stripPrefix_Some in E1. apply scanToGt_Some in E2 as [E2 Hattrs].
  apply scanToClose_Some in E3 as [E3 Hfirst].
  exists attrs. split; [reflexivity|]. split; [reflexivity|].
  split; [assumption|]. split.
  - rewrite E1, E2, E3. apply opening_assoc.
  - intros before from Hb Hne.
    change (startsWith (from ++ ("</" ++ name ++ ">") ++ s3) ("</" ++ name ++ ">") = false).
    unfold startsWith. now rewrite (Hfirst before from Hb Hne).
Qed.

Lemma matchTagAt_complete (name s : string) :
  pairAtHead name s -> exists m, matchTagAt name s = Some m.
Proof.
  intros (attrs & body & rest & Hattrs & ->). unfold matchTagAt.
  rewrite <- opening_assoc.
  rewrite stripPrefix_append, (scanToGt_complete _ _ Hattrs).
  destruct (scanToClose_complete ("</" ++ name ++ ">") body rest) as (b & r & ->).
  eauto.
Qed.

Lemma matchTagAt_None (name s : string) :
  matchTagAt name s = None <-> ~ pairAtHead name s.
Proof.
  split.
  - intros H Hpair. apply matchTagAt_complete in Hpair as [m Hm]. congruence.
  - intros H. destruct (matchTagAt name s) as [m|] eqn:E; [|reflexivity].
    elim H. apply matchTagAt_Some in E as (attrs & Ho & Hc & Hattrs & Hs & _).
    exists attrs, (content m), (after m). split; [assumption|].
    now rewrite <- Ho, <- Hc.
Qed.

Section Replace.

Variable name : string.
Variable replacer : string -> string -> string -> string.

Lemma replaceTagPairs_skip (matched rest : string) :
  replaceTagPairs name replacer (matched ++ rest) (String.length matched)
  = replaceTagPairs name replacer rest 0.
Proof.
  induction matched as [|c matched IH]; simpl; [|exact IH].
  destruct rest; reflexivity.
Qed.

(** After a match the replacement goes on with the text after it. *)
Lemma replaceTagPairs_match (s : string) (m : TagMatch) :
  matchTagAt name s = Some m ->
  replaceTagPairs name replacer s 0
  = replacer (openTag m) (content m) (closeTag m)
      ++ replaceTagPairs name replacer (after m) 0.
Proof.
  intros Hm.
  destruct (matchTagAt_Some _ _ _ Hm) as (attrs & Ho & Hc & _ & Hs & _).
  destruct s as [|c s']; [discriminate|].
  simpl replaceTagPairs. rewrite Hm. f_equal.
  assert (Hs' : String c s'
                = (openTag m ++ content m ++ closeTag m) ++ after m)
    by (now rewrite !append_assoc).
  destruct (openTag m ++ content m ++ closeTag m) as [|c' matched] eqn:E.
  - rewrite Ho in E. discriminate.
  - inversion Hs'; subst.
    replace (matchLength m - 1) with (String.length matched).
    + apply replaceTagPairs_skip.
    + apply (f_equal String.length) in E. rewrite !length_append in E.
      unfold matchLength. simpl in E. lia.
Qed.

(** Where no match begins, the text is copied. *)
Lemma replaceTagPairs_copy (pre rest : string) :
  (forall before from, pre = before ++ from -> from <> EmptyString ->
                       matchTagAt name (from ++ rest) = None) ->
  replaceTagPairs name replacer (pre ++ rest) 0
  = pre ++ replaceTagPairs name replacer rest 0.
Proof.
  induction pre as [|c pre IH]; intros H; [reflexivity|].
  simpl append. simpl replaceTagPairs.
  assert (Hc : matchTagAt name (String c (pre ++ rest)) = None)
    by (apply (H EmptyString (String c pre)); [reflexivity | discriminate]).
  rewrite Hc. f_equal. apply IH.
  intros before from -> Hne. apply (H (String c before) from); [reflexivity | assumption].
Qed.

(** The first match of the replacement, or none. *)
Lemma replaceTagPairs_first (s : string) :
  ((forall before from, s = before ++ from -> matchTagAt name from = None)
   /\ replaceTagPairs name replacer s 0 = s)
  \/ exists pre from m,
       s = pre ++ from
       /\ (forall before from', pre = before ++ from' -> from' <> EmptyString ->
                                matchTagAt name (from' ++ from) = None)
       /\ matchTagAt name from = Some m
       /\ replaceTagPairs name replacer s 0
          = pre ++ replacer (openTag m) (content m) (closeTag m)
              ++ replaceTagPairs name replacer (after m) 0.
Proof.
  induction s as [|c s IH].
  - left. split; [|reflexivity].
    intros [|x before] from H; simpl in H; [subst; reflexivity | discriminate].
  - destruct (matchTagAt name (String c s)) as [m|] eqn:Hm.
    + right. exists EmptyString, (String c s), m. repeat split; try assumption.
      * intros [|x before] from' H Hne; simpl in H; [congruence | discriminate].
      * now apply replaceTagPairs_match.
    + destruct IH as [[Hnone Hid] | (pre & from & m & -> & Hpre & Hfrom & Hout)].
      * left. split.
        -- intros [|x before] from H; simpl in H.
           ++ now subst.
           ++ inversion H; subst. now apply (Hnone before).
        -- simpl replaceTagPairs. rewrite Hm. now rewrite Hid.
      * right. exists (String c pre), from, m. repeat split; try assumption.
        -- intros [|x before] from' H Hne; simpl in H.
           ++ now subst.
           ++ inversion H; subst. now apply (Hpre before).
        -- simpl replaceTagPairs. simpl in Hm. rewrite Hm. simpl. now rewrite Hout.
Qed.

End Replace.

(* ===================================================================== *)
(** * The escaping works on matched pairs only *)
(* ===================================================================== *)

Section EscapePairs.

Variable name : string.

Lemma replaceTagPairs_noPair (s : string) :
  noPair name s -> replaceTagPairs name replacer s 0 = s.
Proof.
  intros Hno.
  destruct (replaceTagPairs_first name replacer s)
    as [[_ Hid] | (pre & from & m & Hs & _ & Hm & _)]; [exact Hid|].
  exfalso. apply (Hno pre from Hs).
  destruct (matchTagAt_Some _ _ _ Hm) as (attrs & Ho & Hc & Hattrs & Hfrom & _).
  exists attrs, (content m), (after m). split; [assumption|].
  now rewrite <- Ho, <- Hc.
Qed.

Lemma replaceTagPairs_escapesMatchedPairs (s : string) :
  escapesMatchedPairs name (fun t => replaceTagPairs name replacer t 0) s.
Proof.
  destruct (replaceTagPairs_first name replacer s)
    as [[Hnone Hid] | (pre & from & m & Hs & Hpre & Hm & Hout)].
  - left. split; [|exact Hid].
    intros before from Hs. apply matchTagAt_None. now apply (Hnone before).
  - right.
    destruct (matchTagAt_Some _ _ _ Hm) as (attrs & Ho & Hc & Hattrs & Hfrom & Hfirst).
    exists pre, attrs, (content m), (after m). cbv zeta.
    rewrite <- Ho, <- Hc, <- Hfrom.
    split; [exact Hs|]. split; [exact Hattrs|].
    split; [|split].
    + intros before from' Hb Hne. apply matchTagAt_None. now apply (Hpre before).
    + exact Hfirst.
    + rewrite Hout. unfold replacer, escapeTag. now rewrite !append_assoc.
Qed.

Lemma noPair_without_closing (s : string) :
  includes s ("</" ++ name ++ ">") = false -> noPair name s.
Proof.
  intros H before from Hs (attrs & body & rest & _ & Hfrom).
  assert (Hin : includes s ("</" ++ name ++ ">") = true); [|congruence].
  apply includes_iff.
  exists (before ++ ("<" ++ name ++ attrs ++ ">") ++ body), rest.
  rewrite Hs, Hfrom. now rewrite !append_assoc.
Qed.

Lemma noPair_without_opening (s : string) :
  includes s ("<" ++ name) = false -> noPair name s.
Proof.
  intros H before from Hs (attrs & body & rest & _ & Hfrom).
  assert (Hin : includes s ("<" ++ name) = true); [|congruence].
  apply includes_iff.
  exists before, (attrs ++ ">" ++ body ++ ("</" ++ name ++ ">") ++ rest).
  rewrite Hs, Hfrom. f_equal. symmetry. apply opening_assoc.
Qed.

End EscapePairs.

Lemma escapeBoltAActionTags_noPair (s : string) :
  noPair "boltAction" s -> escapeBoltAActionTags s = s.
Proof. exact (replaceTagPairs_noPair "boltAction" s). Qed.

Lemma escapeBoltArtifactTags_noPair (s : string) :
  noPair "boltArtifact" s -> escapeBoltArtifactTags s = s.
Proof. exact (replaceTagPairs_noPair "boltArtifact" s). Qed.

(** C7, as amended: each of the two passes of [escapeBoltTags] works on
    the matched pairs of the text it is given, and on nothing else: the
    action pass on the input, the artifact pass on the result of the
    action pass.  The closing tag of a pair is the next one after its
    opening tag; the text before the first pair and the text between the
    tags come back unchanged from the pass, and the text after the pair is
    treated the same way.  Where the input holds no action pair only the
    artifact pass acts, and where the result of the action pass holds no
    artifact pair only the action pass acts.  A text without a matched
    pair of either tag comes back unchanged from [escapeBoltTags]; in
    particular a text with opening tags and no closing tag, and a text
    with closing tags and no opening tag. *)
Theorem escapeBoltTags_matched_pairs_only (s : string) :
  escapesMatchedPairs "boltAction" escapeBoltAActionTags s
  /\ escapesMatchedPairs "boltArtifact" escapeBoltArtifactTags s
  /\ escapesMatchedPairs "boltArtifact" escapeBoltArtifactTags
       (escapeBoltAActionTags s)
  /\ escapeBoltTags s = escapeBoltArtifactTags (escapeBoltAActionTags s)
  /\ (noPair "boltAction" s -> escapeBoltTags s = escapeBoltArtifactTags s)
  /\ (noPair "boltArtifact" (escapeBoltAActionTags s) ->
      escapeBoltTags s = escapeBoltAActionTags s)
  /\ (noPair "boltAction" s -> noPair "boltArtifact" s -> escapeBoltTags s = s)
  /\ (includes s "</boltAction>" = false -> includes s "</boltArtifact>" = false ->
      escapeBoltTags s = s)
  /\ (includes s "<boltAction" = false -> includes s "<boltArtifact" = false ->
      escapeBoltTags s = s).
Proof.
  assert (Hid : noPair "boltAction" s -> noPair "boltArtifact" s ->
                escapeBoltTags s = s).
  { intros Haction Hartifact. unfold escapeBoltTags.
    rewrite (escapeBoltAActionTags_noPair _ Haction).
    now apply escapeBoltArtifactTags_noPair. }
  split; [apply (replaceTagPairs_escapesMatchedPairs "boltAction")|].
  split; [apply (replaceTagPairs_escapesMatchedPairs "boltArtifact")|].
  split; [apply (replaceTagPairs_escapesMatchedPairs "boltArtifact")|].
  split; [reflexivity|].
  split; [intros Haction; unfold escapeBoltTags;
          now rewrite (escapeBoltAActionTags_noPair _ Haction)|].
  split; [intros Hartifact; unfold escapeBoltTags;
          now apply escapeBoltArtifactTags_noPair|].
  split; [exact Hid|]. split.
  - intros Haction Hartifact.
    apply Hid; [apply (noPair_without_closing "boltAction") |
                apply (noPair_without_closing "boltArtifact")]; assumption.
  - intros Haction Hartifact.
    apply Hid; [apply (noPair_without_opening "boltAction") |
                apply (noPair_without_opening "boltArtifact")]; assumption.
Qed.

(** Witness of C7: opening tags that are never closed, and a closing tag
    that was never opened. *)
Lemma escapeBoltTags_matched_pairs_only_witness :
  escapeBoltTags "<boltArtifact id=1><boltAction type=shell>npm install"
  = "<boltArtifact id=1><boltAction type=shell>npm install"
  /\ escapeBoltTags "npm install</boltAction></boltArtifact>"
     = "npm install</boltAction></boltArtifact>".
Proof.
  split.
  - assert (Haction : includes "<boltArtifact id=1><boltAction type=shell>npm install"
                        "</boltAction>" = false) by (vm_compute; reflexivity).
    assert (Hartifact : includes "<boltArtifact id=1><boltAction type=shell>npm install"
                          "</boltArtifact>" = false) by (vm_compute; reflexivity).
    exact (proj1 (proj2 (proj2 (proj2 (proj2 (proj2 (proj2 (proj2
             (escapeBoltTags_matched_pairs_only _)))))))) Haction Hartifact).
  - assert (Haction : includes "npm install</boltAction></boltArtifact>"
                        "<boltAction" = false) by (vm_compute; reflexivity).
    assert (Hartifact : includes "npm install</boltAction></boltArtifact>"
                          "<boltArtifact" = false) by (vm_compute; reflexivity).
    exact (proj2 (proj2 (proj2 (proj2 (proj2 (proj2 (proj2 (proj2
             (escapeBoltTags_matched_pairs_only _)))))))) Haction Hartifact).
Defined.

(** Counterexample to C7 as stated.  In the text below the artifact pair
    is the opening tag [<boltArtifact<boltAction>] with the first closing
    tag, and the action pair lies inside it; the tail after the artifact
    pair holds no pair of either tag, only a closing tag that was never
    opened.  The action pass escapes the ['>'] that ended the opening
    artifact tag, so the artifact pass pairs a longer opening tag with the
    closing tag of the tail and rewrites it: each pass alone leaves the
    tail as it is, and [escapeBoltTags] does not. *)
Lemma escapeBoltTags_matched_pairs_counterexample :
  let tail := " outside < text </boltArtifact>" in
  let s := "<boltArtifact<boltAction>x</boltAction></boltArtifact>" ++ tail in
  matchTagAt "boltArtifact" s
  = Some {| openTag := "<boltArtifact<boltAction>";
            content := "x</boltAction>";
            closeTag := "</boltArtifact>";
            after := tail |}
  /\ matchTagAt "boltAction" ("<boltAction>x</boltAction></boltArtifact>" ++ tail)
     = Some {| openTag := "<boltAction>";
               content := "x";
               closeTag := "</boltAction>";
               after := "</boltArtifact>" ++ tail |}
  /\ noPair "boltAction" tail
  /\ noPair "boltArtifact" tail
  /\ escapeBoltTags s
     = "&lt;boltArtifact&lt;boltAction&gt;x&lt;/boltAction&gt;&lt;/boltArtifact&gt;"
         ++ " outside < text &lt;/boltArtifact&gt;"
  /\ endsWith (escapeBoltAActionTags s) tail = true
  /\ endsWith (escapeBoltArtifactTags s) tail = true
  /\ endsWith (escapeBoltTags s) tail = false.
Proof.
  cbv zeta. split; [vm_compute; reflexivity|]. split; [vm_compute; reflexivity|].
  split; [apply (noPair_without_opening "boltAction"); vm_compute; reflexivity|].
  split; [apply (noPair_without_opening "boltArtifact"); vm_compute; reflexivity|].
  split; [vm_compute; reflexivity|]. split; [vm_compute; reflexivity|].
  split; vm_compute; reflexivity.
Qed.

(* ===================================================================== *)
(** * Escaping one file action among unrelated text *)
(* ===================================================================== *)

Lemma charIn_middle (c : ascii) (a b : string) : charIn c (a ++ String c b) = true.
Proof.
  induction a as [|x a IH]; simpl.
  - now rewrite Ascii.eqb_refl.
  - rewrite IH. apply orb_true_r.
Qed.

(** A prefix match on [from ++ rest] lies within [from] or runs over its
    end. *)
Lemma stripPrefix_append_cases (p from rest r : string) :
  stripPrefix p (from ++ rest) = Some r ->
  (exists r', stripPrefix p from = Some r')
  \/ (exists p2, p = from ++ p2 /\ p2 <> EmptyString /\ stripPrefix p2 rest = Some r).
Proof.
  revert from; induction p as [|x p IH]; intros from H.
  - left. now exists from.
  - destruct from as [|y from].
    + right. exists (String x p). repeat split; [discriminate | exact H].
    + simpl in H. destruct (Ascii.eqb_spec x y) as [->|]; [|discriminate].
      destruct (IH from H) as [[r' Hr'] | (p2 & -> & Hne & Hp2)].
      * left. exists r'. simpl. now rewrite Ascii.eqb_refl.
      * right. exists p2. repeat split; assumption.
Qed.

(** No occurrence begins in a text that does not contain the pattern, when
    the next character cannot continue the pattern. *)
Lemma noStart_by_absence (p0 : ascii) (ptl pre rest : string) :
  includes pre (String p0 ptl) = false ->
  match rest with
  | EmptyString => True
  | String c _ => charIn c ptl = false
  end ->
  noStart (String p0 ptl) pre rest.
Proof.
  intros Hpre Hrest before from -> Hne.
  destruct (stripPrefix (String p0 ptl) (from ++ rest)) as [r|] eqn:E; [|reflexivity].
  exfalso.
  destruct (stripPrefix_append_cases _ _ _ _ E) as [[r' Hr'] | (p2 & Hp & Hp2 & Hrest')].
  - apply stripPrefix_Some in Hr'. subst from.
    assert (Hin : includes (before ++ String p0 ptl ++ r') (String p0 ptl) = true)
      by apply includes_middle.
    congruence.
  - destruct from as [|y from]; [now elim Hne|].
    destruct p2 as [|c p2]; [now elim Hp2|].
    destruct rest as [|c' rest]; [discriminate|].
    simpl in Hrest'. destruct (Ascii.eqb_spec c c') as [->|]; [|discriminate].
    inversion Hp; subst.
    rewrite charIn_middle in Hrest. discriminate.
Qed.

(** No occurrence begins in a text without the first character of the
    pattern. *)
Lemma noStart_by_head (p0 : ascii) (ptl mid rest : string) :
  charIn p0 mid = false -> noStart (String p0 ptl) mid rest.
Proof.
  intros Hmid before from -> Hne.
  destruct from as [|y from]; [now elim Hne|].
  simpl. destruct (Ascii.eqb_spec p0 y) as [->|]; [|reflexivity].
  rewrite charIn_middle in Hmid. discriminate.
Qed.

Lemma includes_append_false (pat a b : string) :
  noStart pat a b -> includes b pat = false -> includes (a ++ b) pat = false.
Proof.
  induction a as [|c a IH]; intros Hstart Hb; [exact Hb|].
  simpl. apply orb_false_iff; split.
  - unfold startsWith.
    change (String c (a ++ b)) with (String c a ++ b).
    now rewrite (Hstart EmptyString (String c a) eq_refl).
  - apply IH; [|exact Hb].
    intros before from -> Hne. now apply (Hstart (String c before) from).
Qed.

Lemma replaceTagPairs_noStart (name : string)
  (replacer : string -> string -> string -> string) (a b : string) :
  noStart ("<" ++ name) a b ->
  replaceTagPairs name replacer (a ++ b) 0
  = a ++ replaceTagPairs name replacer b 0.
Proof.
  intros Hstart. apply replaceTagPairs_copy.
  intros before from Ha Hne. unfold matchTagAt.
  now rewrite (Hstart before from Ha Hne).
Qed.

Lemma escapeBoltAActionTags_noStart (a b : string) :
  noStart "<boltAction" a b ->
  escapeBoltAActionTags (a ++ b) = a ++ escapeBoltAActionTags b.
Proof. exact (replaceTagPairs_noStart "boltAction" _ a b). Qed.

Lemma escapeBoltArtifactTags_noStart (a b : string) :
  noStart "<boltArtifact" a b ->
  escapeBoltArtifactTags (a ++ b) = a ++ escapeBoltArtifactTags b.
Proof. exact (replaceTagPairs_noStart "boltArtifact" _ a b). Qed.

Lemma escapeBoltAActionTags_match (s : string) (m : TagMatch) :
  matchTagAt "boltAction" s = Some m ->
  escapeBoltAActionTags s
  = (escapeTag (openTag m) ++ content m ++ escapeTag (closeTag m))
      ++ escapeBoltAActionTags (after m).
Proof. exact (replaceTagPairs_match "boltAction" _ s m). Qed.

Lemma mentionsBoltTag_false (t : string) :
  mentionsBoltTag t = false ->
  includes t "<boltAction" = false /\ includes t "</boltAction>" = false
  /\ includes t "<boltArtifact" = false /\ includes t "</boltArtifact>" = false.
Proof.
  unfold mentionsBoltTag. intros H.
  apply orb_false_iff in H as [H H4]. apply orb_false_iff in H as [H H3].
  apply orb_false_iff in H as [H1 H2]. auto.
Qed.

(** C6: in a text made of the pair [<boltAction type="file">x</boltAction>]
    among text that mentions neither reserved tag, [escapeBoltTags]
    escapes the two tags of the pair and returns the rest unchanged; no
    opening [<boltAction] and no closing [</boltAction>] is left. *)
Theorem escapeBoltTags_file_action (pre post : string) :
  mentionsBoltTag pre = false ->
  mentionsBoltTag post = false ->
  let pair := "<boltAction type=" ++ dq ++ "file" ++ dq ++ ">x</boltAction>" in
  let escaped := "&lt;boltAction type=" ++ dq ++ "file" ++ dq ++ "&gt;x&lt;/boltAction&gt;" in
  escapeBoltTags (pre ++ pair ++ post) = pre ++ escaped ++ post
  /\ includes (escapeBoltTags (pre ++ pair ++ post)) "<boltAction" = false
  /\ includes (escapeBoltTags (pre ++ pair ++ post)) "</boltAction>" = false.
Proof.
  intros Hpre Hpost pair escaped.
  apply mentionsBoltTag_false in Hpre as (Hpre1 & Hpre2 & Hpre3 & _).
  apply mentionsBoltTag_false in Hpost as (Hpost1 & Hpost2 & Hpost3 & _).
  assert (Hescaped : charIn "<" escaped = false) by (vm_compute; reflexivity).
  assert (Hout : escapeBoltTags (pre ++ pair ++ post) = pre ++ escaped ++ post).
  { unfold escapeBoltTags.
    assert (Hfirst : escapeBoltAActionTags (pre ++ pair ++ post) = pre ++ escaped ++ post).
    { rewrite escapeBoltAActionTags_noStart
        by (apply noStart_by_absence; [exact Hpre1 | vm_compute; reflexivity]).
      f_equal.
      rewrite (escapeBoltAActionTags_match (pair ++ post)
                 {| openTag := "<boltAction type=" ++ dq ++ "file" ++ dq ++ ">";
                    content := "x";
                    closeTag := "</boltAction>";
                    after := post |})
        by reflexivity.
      cbn [openTag content closeTag after].
      rewrite (escapeBoltAActionTags_noPair post)
        by (apply (noPair_without_opening "boltAction"); exact Hpost1).
      reflexivity. }
    rewrite Hfirst.
    rewrite escapeBoltArtifactTags_noStart
      by (apply noStart_by_absence; [exact Hpre3 | vm_compute; reflexivity]).
    f_equal.
    rewrite escapeBoltArtifactTags_noStart by (apply noStart_by_head; exact Hescaped).
    f_equal.
    apply (escapeBoltArtifactTags_noPair post).
    apply (noPair_without_opening "boltArtifact"); exact Hpost3. }
  split; [exact Hout|]. rewrite Hout. split.
  - apply includes_append_false;
      [apply noStart_by_absence; [exact Hpre1 | vm_compute; reflexivity]|].
    apply includes_append_false; [apply noStart_by_head; exact Hescaped | exact Hpost1].
  - apply includes_append_false;
      [apply noStart_by_absence; [exact Hpre2 | vm_compute; reflexivity]|].
    apply includes_append_false; [apply noStart_by_head; exact Hescaped | exact Hpost2].
Qed.

(** Witness of C6: the pair inside a [div]. *)
Lemma escapeBoltTags_file_action_witness :
  escapeBoltTags
    ("<div>" ++ ("<boltAction type=" ++ dq ++ "file" ++ dq ++ ">x</boltAction>") ++ "</div>")
  = "<div>" ++ ("&lt;boltAction type=" ++ dq ++ "file" ++ dq ++ "&gt;x&lt;/boltAction&gt;")
      ++ "</div>".
Proof.
  assert (Hpre : mentionsBoltTag "<div>" = false) by (vm_compute; reflexivity).
  assert (Hpost : mentionsBoltTag "</div>" = false) by (vm_compute; reflexivity).
  exact (proj1 (escapeBoltTags_file_action "<div>" "</div>" Hpre Hpost)).
Defined.

(* ===================================================================== *)
(** * More on the detector *)
(* ===================================================================== *)

(** The outcome of the detector, branch by branch.  The branch for a
    missing [packageJsonFile] is never taken. *)
Lemma detect_outcomes (JSON_parse : string -> option JSValue)
  (files : list FileContent.t) :
  let commands := detectProjectCommands JSON_parse files in
  (exists f packageJson,
      find isPackageJson files = Some f
      /\ JSON_parse (FileContent.content f) = Some packageJson
      /\ commands =
           match find (fun cmd => truthy (scriptsEntry packageJson cmd))
                      preferredCommands with
           | Some availableCommand => nodeCommands availableCommand
           | None => nodeFallbackCommands
           end)
  \/ (exists f,
         find isPackageJson files = Some f
         /\ JSON_parse (FileContent.content f) = None
         /\ commands = parseErrorCommands)
  \/ (hasFile files "package.json" = false
      /\ hasFile files "index.html" = true
      /\ commands = staticCommands)
  \/ (hasFile files "package.json" = false
      /\ hasFile files "index.html" = false
      /\ commands = unknownCommands).
Proof.
  cbv zeta. destruct (hasFile files "package.json") eqn:Hpkg.
  - destruct (hasFile_find _ _ Hpkg) as [f Hf]. fold isPackageJson in Hf.
    rewrite (detect_first_package _ _ _ Hf).
    destruct (JSON_parse (FileContent.content f)) as [packageJson|] eqn:Hj.
    + left. exists f, packageJson. repeat split; try assumption.
      rewrite (detectFromPackageJson_parsed _ _ _ Hj).
      now destruct (find _ preferredCommands).
    + right; left. exists f. repeat split; try assumption.
      unfold detectFromPackageJson. now rewrite Hj.
  - unfold detectProjectCommands. rewrite Hpkg.
    destruct (hasFile files "index.html") eqn:Hidx.
    + right; right; left. repeat split.
    + right; right; right. repeat split.
Qed.

(** The preferred command found, if any, is one of the three. *)
Lemma find_preferred (p : string -> bool) (cmd : string) :
  find p preferredCommands = Some cmd ->
  cmd = "dev" \/ cmd = "start" \/ cmd = "preview".
Proof.
  intros H. apply find_some in H as [Hin _].
  destruct Hin as [<-|[<-|[<-|[]]]]; auto.
Qed.

(** X1: the type of the result is "Node.js", "Static" or "Unknown" and
    never the empty label of the branch for a missing package.json file,
    which cannot be reached; it is "Unknown" exactly when no path ends
    with "package.json" or with "index.html". *)
Theorem detect_type_closed
  (JSON_parse : string -> option JSValue) (files : list FileContent.t) :
  let type := ProjectCommands.type (detectProjectCommands JSON_parse files) in
  (type = "Node.js" \/ type = "Static" \/ type = "Unknown")
  /\ type <> EmptyString
  /\ (type = "Unknown"
      <-> hasFile files "package.json" = false /\ hasFile files "index.html" = false).
Proof.
  cbv zeta.
  destruct (detect_outcomes JSON_parse files)
    as [(f & j & Hf & _ & ->) | [(f & Hf & _ & ->) | [(Hp & Hi & ->) | (Hp & Hi & ->)]]].
  - apply find_hasFile in Hf.
    destruct (find _ preferredCommands); simpl;
      (split; [auto|]; split; [discriminate|]; split;
       [discriminate | intros [H _]; unfold isPackageJson in Hf; congruence]).
  - apply find_hasFile in Hf. simpl.
    split; [auto|]. split; [discriminate|]. split;
      [discriminate | intros [H _]; congruence].
  - simpl. split; [auto|]. split; [discriminate|]. split;
      [discriminate | intros [_ H]; congruence].
  - simpl. split; [auto|]. split; [discriminate|]. split; auto.
Qed.

(** X2: every result carries a setup command, so the commands message
    never falls back to its default pair for a detected project: the
    command is "npm install -g serve" for a Static project and
    "npm install" for every other one. *)
Theorem detect_setupCommand
  (JSON_parse : string -> option JSValue) (files : list FileContent.t) :
  let commands := detectProjectCommands JSON_parse files in
  ProjectCommands.setupCommand commands
  = Some (if String.eqb (ProjectCommands.type commands) "Static"
          then "npm install -g serve" else "npm install")
  /\ truthyString (ProjectCommands.setupCommand commands) = true.
Proof.
  cbv zeta.
  destruct (detect_outcomes JSON_parse files)
    as [(f & j & _ & _ & ->) | [(f & _ & _ & ->) | [(_ & _ & ->) | (_ & _ & ->)]]];
    try (split; reflexivity).
  destruct (find _ preferredCommands); split; reflexivity.
Qed.

(** X3: the start command is missing in exactly two cases: no path ends
    with either marker name, or the package.json that is read does not
    parse.  When there is one it is "npm run dev", "npm run start",
    "npm run preview", "npm start" or "npx --yes serve". *)
Theorem detect_startCommand
  (JSON_parse : string -> option JSValue) (files : list FileContent.t) :
  let start := ProjectCommands.startCommand (detectProjectCommands JSON_parse files) in
  (start = None
   <-> (hasFile files "package.json" = false /\ hasFile files "index.html" = false)
       \/ exists f, find isPackageJson files = Some f
                    /\ JSON_parse (FileContent.content f) = None)
  /\ (forall command, start = Some command ->
        In command ["npm run dev"; "npm run start"; "npm run preview";
                    "npm start"; "npx --yes serve"]).
Proof.
  cbv zeta.
  destruct (detect_outcomes JSON_parse files)
    as [(f & j & Hf & Hj & ->) | [(f & Hf & Hj & ->) | [(Hp & Hi & ->) | (Hp & Hi & ->)]]].
  - assert (Hpkg := find_hasFile _ _ _ Hf).
    destruct (find _ preferredCommands) as [cmd|] eqn:Hcmd.
    + split.
      * split; [discriminate|].
        intros [[H _] | (g & Hg & Hnone)]; unfold isPackageJson in *; congruence.
      * intros command H; inversion H; subst.
        destruct (find_preferred _ _ Hcmd) as [-> | [-> | ->]]; simpl; auto.
    + split.
      * split; [discriminate|].
        intros [[H _] | (g & Hg & Hnone)]; unfold isPackageJson in *; congruence.
      * intros command H; inversion H; subst. simpl; auto.
  - split.
    + split; [|reflexivity]. intros _. right. now exists f.
    + intros command H; discriminate H.
  - split.
    + split; [discriminate|].
      intros [[_ H] | (g & Hg & _)]; [congruence|].
      apply find_hasFile in Hg. congruence.
    + intros command H; inversion H; subst. simpl; auto 6.
  - split.
    + split; [|reflexivity]. intros _. left. now split.
    + intros command H; discriminate H.
Qed.

(** X4: a package.json that parses is never an error, whatever it parses
    to.  Without an object under "scripts" (the text is [null], a number,
    a string, an array, an object without that member, or the member is
    not an object) the result is the Node.js fallback with "npm start". *)
Theorem detect_scripts_not_object
  (JSON_parse : string -> option JSValue)
  (files : list FileContent.t) (f : FileContent.t) (packageJson : JSValue) :
  find isPackageJson files = Some f ->
  JSON_parse (FileContent.content f) = Some packageJson ->
  (forall members,
      getPropOptional (Some packageJson) "scripts" <> Some (JObject members)) ->
  detectProjectCommands JSON_parse files = nodeFallbackCommands.
Proof.
  intros Hf Hj Hscripts.
  rewrite (detect_first_package _ _ _ Hf), (detectFromPackageJson_parsed _ _ _ Hj).
  assert (Hnone : forall cmd, scriptsEntry packageJson cmd = None).
  { intros cmd. unfold scriptsEntry.
    destruct (getPropOptional (Some packageJson) "scripts") as [[| | | | |members]|];
      try reflexivity.
    now elim (Hscripts members). }
  simpl. rewrite !Hnone. reflexivity.
Qed.

(** Witness of X4: a package.json whose text is [null], and one whose
    scripts member is a string. *)
Lemma detect_scripts_not_object_witness :
  detectProjectCommands parseJSON
    [ {| FileContent.content := "null"; FileContent.path := "package.json" |} ]
  = nodeFallbackCommands
  /\ detectProjectCommands parseJSON
       [ {| FileContent.content := jsonText "{'scripts':'vite'}";
            FileContent.path := "package.json" |} ]
     = nodeFallbackCommands.
Proof.
  split.
  - set (f := {| FileContent.content := "null"; FileContent.path := _ |}).
    assert (Hf : find isPackageJson [f] = Some f) by (vm_compute; reflexivity).
    assert (Hj : parseJSON (FileContent.content f) = Some JNull)
      by (vm_compute; reflexivity).
    assert (Hs : forall members,
               getPropOptional (Some JNull) "scripts" <> Some (JObject members))
      by (intros members; discriminate).
    exact (detect_scripts_not_object parseJSON [f] f JNull Hf Hj Hs).
  - set (f := {| FileContent.content := jsonText _; FileContent.path := _ |}).
    set (packageJson := JObject [("scripts", JString "vite")]).
    assert (Hf : find isPackageJson [f] = Some f) by (vm_compute; reflexivity).
    assert (Hj : parseJSON (FileContent.content f) = Some packageJson)
      by (vm_compute; reflexivity).
    assert (Hs : forall members,
               getPropOptional (Some packageJson) "scripts" <> Some (JObject members))
      by (intros members; vm_compute; discriminate).
    exact (detect_scripts_not_object parseJSON [f] f packageJson Hf Hj Hs).
Defined.

Lemma existsb_filter {A : Type} (p q : A -> bool) (l : list A) :
  (forall x, p x = true -> q x = true) ->
  existsb p (filter q l) = existsb p l.
Proof.
  intros Hpq. induction l as [|x l IH]; [reflexivity|].
  simpl. destruct (q x) eqn:Hq; simpl.
  - now rewrite IH.
  - destruct (p x) eqn:Hp; [|exact IH].
    rewrite (Hpq x Hp) in Hq. discriminate.
Qed.

Lemma find_filter {A : Type} (p q : A -> bool) (l : list A) :
  (forall x, p x = true -> q x = true) ->
  find p (filter q l) = find p l.
Proof.
  intros Hpq. induction l as [|x l IH]; [reflexivity|].
  simpl. destruct (q x) eqn:Hq; simpl.
  - now rewrite IH.
  - destruct (p x) eqn:Hp; [|exact IH].
    rewrite (Hpq x Hp) in Hq. discriminate.
Qed.

(** X5: only the marker files count.  Dropping every file whose path ends
    with neither "package.json" nor "index.html" leaves the result as it
    is. *)
Theorem detect_ignores_other_files
  (JSON_parse : string -> option JSValue) (files : list FileContent.t) :
  detectProjectCommands JSON_parse (filter isMarker files)
  = detectProjectCommands JSON_parse files.
Proof.
  unfold detectProjectCommands, hasFile.
  rewrite !existsb_filter, find_filter; [reflexivity| | |];
    intros x Hx; unfold isMarker; rewrite Hx; auto using orb_true_r.
Qed.

(* ===================================================================== *)
(** * More on the commands message and the folder import *)
(* ===================================================================== *)

Lemma append_inv_head (a b c : string) : a ++ b = a ++ c -> b = c.
Proof.
  induction a as [|x a IH]; simpl; intros H; [exact H|].
  inversion H. now apply IH.
Qed.

Lemma renderActions_cons (action : ActionKind * string)
  (rest : list (ActionKind * string)) :
  renderActions (action :: rest) = renderAction action ++ renderActions rest.
Proof. reflexivity. Qed.

(** X6: [createCommandActionsString] always writes two actions, shell then
    start, each command replaced by its default ("npm install",
    "npm run dev") when it is missing or empty.  It writes the same text
    as [createCommandsMessage] exactly when both commands are there or
    both are missing; with one of the two, only
    [createCommandActionsString] supplies the other. *)
Theorem createCommandActionsString_actions (commands : ProjectCommands.t) :
  let setup := ProjectCommands.setupCommand commands in
  let start := ProjectCommands.startCommand commands in
  createCommandActionsString commands
  = renderActions [(ShellAction, orDefault setup "npm install");
                   (StartAction, orDefault start "npm run dev")]
  /\ (commandString commands = createCommandActionsString commands
      <-> truthyString setup = truthyString start).
Proof.
  cbv zeta.
  assert (Hsibling :
    createCommandActionsString commands
    = renderActions
        [(ShellAction, orDefault (ProjectCommands.setupCommand commands) "npm install");
         (StartAction, orDefault (ProjectCommands.startCommand commands) "npm run dev")]).
  { unfold createCommandActionsString. cbv zeta. simpl renderActions.
    simpl append at 1. now rewrite !append_assoc, append_nil_r. }
  split; [exact Hsibling|].
  rewrite Hsibling, commandString_actions. cbv zeta. unfold orDefault.
  destruct (truthyString (ProjectCommands.setupCommand commands));
    destruct (truthyString (ProjectCommands.startCommand commands)).
  - split; reflexivity.
  - split; [|discriminate]. intros H. exfalso.
    rewrite (renderActions_cons (ShellAction, _)) in H.
    rewrite (renderActions_cons (ShellAction, _) [_]) in H.
    apply append_inv_head in H. vm_compute in H. discriminate H.
  - split; [|discriminate]. intros H. exfalso.
    vm_compute in H. discriminate H.
  - split; reflexivity.
Qed.

(** X7: for the commands of a detected project the commands message holds
    the shell action with the detector's setup command first, followed by
    a start action exactly when the detector found a start command. *)
Theorem commandString_detected
  (JSON_parse : string -> option JSValue) (files : list FileContent.t) :
  let commands := detectProjectCommands JSON_parse files in
  exists setup,
    ProjectCommands.setupCommand commands = Some setup
    /\ commandString commands
       = renderActions
           ((ShellAction, setup)
            :: match ProjectCommands.startCommand commands with
               | Some start => [(StartAction, start)]
               | None => []
               end).
Proof.
  cbv zeta.
  destruct (detect_outcomes JSON_parse files)
    as [(f & j & _ & _ & ->) | [(f & _ & _ & ->) | [(_ & _ & ->) | (_ & _ & ->)]]].
  - destruct (find _ preferredCommands) as [cmd|];
      (eexists; split; [reflexivity|]);
      rewrite commandString_actions; reflexivity.
  - eexists; split; [reflexivity|]. rewrite commandString_actions; reflexivity.
  - eexists; split; [reflexivity|]. rewrite commandString_actions; reflexivity.
  - eexists; split; [reflexivity|]. rewrite commandString_actions; reflexivity.
Qed.

(** X8: when the files are read, the last message of the import holds the
    shell action, and it holds a start action exactly when the detector
    found a start command for the files as imported: not for a folder
    without marker files, and not for a package.json that does not
    parse. *)
Theorem createChatFromFolder_start_action
  (JSON_parse : string -> option JSValue)
  (World : Type) (generateId : World -> string * World)
  (newDate : World -> Z * World)
  (files : list File.t) (binaryFiles : list string) (folderName : string)
  (w : World) (fileArtifacts : list FileContent.t) :
  promiseAll (map readFile files) = Some fileArtifacts ->
  exists m1 m2 m3 m4,
    fst (createChatFromFolder JSON_parse World generateId newDate
           files binaryFiles folderName w)
    = Some [Some m1; Some m2; Some m3; Some m4]
    /\ includes (Message.content m4) shellOpenTag = true
    /\ (includes (Message.content m4) startOpenTag = true
        <-> ProjectCommands.startCommand
              (detectProjectCommands JSON_parse fileArtifacts) <> None).
Proof.
  intros Hread. unfold createChatFromFolder. rewrite Hread.
  do 4 eexists. split; [reflexivity|].
  simpl Message.content.
  destruct (detect_outcomes JSON_parse fileArtifacts)
    as [(f & j & _ & _ & ->) | [(f & _ & _ & ->) | [(_ & _ & ->) | (_ & _ & ->)]]].
  - destruct (find _ preferredCommands) as [cmd|] eqn:Hcmd.
    + destruct (find_preferred _ _ Hcmd) as [-> | [-> | ->]];
        (split; [vm_compute; reflexivity|]);
        (split; [discriminate | intros _; vm_compute; reflexivity]).
    + split; [vm_compute; reflexivity|].
      split; [discriminate | intros _; vm_compute; reflexivity].
  - split; [vm_compute; reflexivity|].
    split; [vm_compute; discriminate | intros H; now elim H].
  - split; [vm_compute; reflexivity|].
    split; [discriminate | intros _; vm_compute; reflexivity].
  - split; [vm_compute; reflexivity|].
    split; [vm_compute; discriminate | intros H; now elim H].
Qed.

(** Witness of X8: a folder with a README only, and a folder with a
    package.json that has a dev script. *)
Lemma createChatFromFolder_start_action_witness :
  (exists m1 m2 m3 m4,
      fst (createChatFromFolder parseJSON nat counterId counterDate
             [File.mk "notes/README.md" (Some "# notes")] [] "notes" 0)
      = Some [Some m1; Some m2; Some m3; Some m4]
      /\ includes (Message.content m4) startOpenTag = false)
  /\ (exists m1 m2 m3 m4,
         fst (createChatFromFolder parseJSON nat counterId counterDate
                [File.mk "app/package.json"
                   (Some (jsonText "{'scripts':{'dev':'vite'}}"))] [] "app" 0)
         = Some [Some m1; Some m2; Some m3; Some m4]
         /\ includes (Message.content m4) startOpenTag = true).
Proof.
  split.
  - assert (Hread : promiseAll (map readFile [File.mk "notes/README.md" (Some "# notes")])
                    = Some [ {| FileContent.content := "# notes";
                                FileContent.path := "README.md" |} ])
      by (vm_compute; reflexivity).
    destruct (createChatFromFolder_start_action parseJSON nat counterId counterDate
                _ [] "notes" 0 _ Hread)
      as (m1 & m2 & m3 & m4 & Hr & _ & Hstart).
    exists m1, m2, m3, m4. split; [exact Hr|].
    destruct (includes (Message.content m4) startOpenTag); [|reflexivity].
    exfalso. apply (proj1 Hstart eq_refl). vm_compute; reflexivity.
  - assert (Hread : promiseAll (map readFile
                      [File.mk "app/package.json"
                         (Some (jsonText "{'scripts':{'dev':'vite'}}"))])
                    = Some [ {| FileContent.content := jsonText "{'scripts':{'dev':'vite'}}";
                                FileContent.path := "package.json" |} ])
      by (vm_compute; reflexivity).
    destruct (createChatFromFolder_start_action parseJSON nat counterId counterDate
                _ [] "app" 0 _ Hread)
      as (m1 & m2 & m3 & m4 & Hr & _ & Hstart).
    exists m1, m2, m3, m4. split; [exact Hr|].
    apply (proj2 Hstart). vm_compute. discriminate.
Defined.

Lemma split_nonempty (sep : ascii) (s : string) : split sep s <> [].
Proof.
  destruct s as [|a s]; simpl; [discriminate|].
  destruct (Ascii.eqb a sep); [discriminate|].
  destruct (split sep s); discriminate.
Qed.

Lemma split_no_separator (sep : ascii) (s : string) :
  charIn sep s = false -> split sep s = [s].
Proof.
  induction s as [|a s IH]; simpl; intros H; [reflexivity|].
  apply orb_false_iff in H as [Ha Hs]. rewrite Ha, (IH Hs). reflexivity.
Qed.

Lemma split_first_segment (sep : ascii) (first rest : string) :
  charIn sep first = false ->
  split sep (first ++ String sep rest) = first :: split sep rest.
Proof.
  induction first as [|a first IH]; simpl; intros H.
  - now rewrite Ascii.eqb_refl.
  - apply orb_false_iff in H as [Ha Hfirst]. rewrite Ha, (IH Hfirst). reflexivity.
Qed.

Lemma join_cons_char (sep : string) (a : ascii) (seg : string) (segs : list string) :
  join sep (String a seg :: segs) = String a (join sep (seg :: segs)).
Proof. destruct segs; reflexivity. Qed.

(** Joining the segments of a split with the separator gives the string
    back. *)
Lemma join_split (sep : ascii) (s : string) :
  join (String sep EmptyString) (split sep s) = s.
Proof.
  induction s as [|a s IH]; [reflexivity|].
  simpl split. destruct (Ascii.eqb_spec a sep) as [->|Hne].
  - destruct (split sep s) as [|seg segs] eqn:E; [now elim (split_nonempty sep s)|].
    change (join (String sep EmptyString) (EmptyString :: seg :: segs))
      with (String sep (join (String sep EmptyString) (seg :: segs))).
    now rewrite IH.
  - destruct (split sep s) as [|seg segs] eqn:E; [now elim (split_nonempty sep s)|].
    rewrite join_cons_char. now rewrite IH.
Qed.

(** X9: a file that is read is imported under its [webkitRelativePath]
    without the first segment: "folder/rest" becomes "rest", however many
    segments "rest" has; a relative path without any "/" becomes the
    empty path. *)
Theorem readFile_relative_path (text : string) :
  (forall folder rest,
      charIn "/" folder = false ->
      readFile (File.mk (folder ++ "/" ++ rest) (Some text))
      = Some {| FileContent.content := text; FileContent.path := rest |})
  /\ (forall name,
         charIn "/" name = false ->
         readFile (File.mk name (Some text))
         = Some {| FileContent.content := text; FileContent.path := EmptyString |}).
Proof.
  split.
  - intros folder rest Hfolder. unfold readFile. simpl File.readAsText.
    simpl File.webkitRelativePath.
    change (folder ++ "/" ++ rest) with (folder ++ String "/" rest).
    rewrite (split_first_segment _ _ _ Hfolder). unfold slice1. simpl tl.
    now rewrite join_split.
  - intros name Hname. unfold readFile. simpl File.readAsText.
    simpl File.webkitRelativePath.
    rewrite (split_no_separator _ _ Hname). reflexivity.
Qed.

(** Witness of X9: a nested file, and a path without a folder. *)
Lemma readFile_relative_path_witness :
  readFile (File.mk "demo/src/app/main.ts" (Some "export {}"))
  = Some {| FileContent.content := "export {}"; FileContent.path := "src/app/main.ts" |}
  /\ readFile (File.mk "package.json" (Some "{}"))
     = Some {| FileContent.content := "{}"; FileContent.path := EmptyString |}.
Proof.
  split.
  - assert (H : charIn "/" "demo" = false) by reflexivity.
    exact (proj1 (readFile_relative_path "export {}") "demo" "src/app/main.ts" H).
  - assert (H : charIn "/" "package.json" = false) by reflexivity.
    exact (proj2 (readFile_relative_path "{}") "package.json" H).
Defined.

(** X10: the import is rejected exactly when some file cannot be read;
    then nothing has been drawn from [generateId] or the clock: the world
    is as it was. *)
Theorem createChatFromFolder_rejection
  (JSON_parse : string -> option JSValue)
  (World : Type) (generateId : World -> string * World)
  (newDate : World -> Z * World)
  (files : list File.t) (binaryFiles : list string) (folderName : string)
  (w : World) :
  let run := createChatFromFolder JSON_parse World generateId newDate
               files binaryFiles folderName w in
  (fst run = None <-> Exists (fun file => File.readAsText file = None) files)
  /\ (fst run = None -> snd run = w).
Proof.
  cbv zeta. unfold createChatFromFolder.
  destruct (readable_or_not files) as [Hfiles|Hfiles].
  - destruct (promiseAll_readFile files Hfiles) as (arts & Hall & _).
    rewrite Hall. split; [split|]; try (intros H; discriminate H).
    intros Hbad. exfalso. apply Exists_exists in Hbad as (file & Hin & Hnone).
    rewrite Forall_forall in Hfiles. now apply (Hfiles file Hin).
  - rewrite (promiseAll_rejected _ Hfiles). split; [split|]; auto.
Qed.

(* ===================================================================== *)
(** * More on the escaping *)
(* ===================================================================== *)

Lemma charIn_append (c : ascii) (a b : string) :
  charIn c (a ++ b) = charIn c a || charIn c b.
Proof.
  induction a as [|x a IH]; simpl; [reflexivity|].
  now rewrite IH, orb_assoc.
Qed.

Lemma charIn_replaceChar_same (c : ascii) (by_ s : string) :
  charIn c by_ = false -> charIn c (replaceChar c by_ s) = false.
Proof.
  intros Hby. induction s as [|a s IH]; simpl; [reflexivity|].
  destruct (Ascii.eqb a c) eqn:E.
  - now rewrite charIn_append, Hby, IH.
  - simpl. now rewrite E, IH.
Qed.

Lemma charIn_replaceChar_other (c d : ascii) (by_ s : string) :
  charIn d by_ = false -> Ascii.eqb c d = false ->
  charIn d (replaceChar c by_ s) = charIn d s.
Proof.
  intros Hby Hcd. induction s as [|a s IH]; simpl; [reflexivity|].
  destruct (Ascii.eqb_spec a c) as [->|Hne].
  - now rewrite charIn_append, Hby, IH, Hcd.
  - simpl. now rewrite IH.
Qed.

Lemma replaceChar_length (c : ascii) (by_ s : string) :
  1 <= String.length by_ ->
  String.length s <= String.length (replaceChar c by_ s).
Proof.
  intros Hby. induction s as [|a s IH]; simpl; [lia|].
  destruct (Ascii.eqb a c); [rewrite length_append | simpl]; lia.
Qed.

Lemma escapeTag_length (tag : string) :
  String.length tag <= String.length (escapeTag tag).
Proof.
  unfold escapeTag.
  etransitivity; [apply (replaceChar_length "<" "&lt;") | apply replaceChar_length];
    simpl; lia.
Qed.

Lemma escapeTag_length_opening (tag : string) :
  String.length (String "<" tag) < String.length (escapeTag (String "<" tag)).
Proof.
  unfold escapeTag.
  change (replaceChar "<" "&lt;" (String "<" tag))
    with ("&lt;" ++ replaceChar "<" "&lt;" tag).
  assert (H1 : String.length ("&lt;" ++ replaceChar "<" "&lt;" tag)
               <= String.length
                    (replaceChar ">" "&gt;" ("&lt;" ++ replaceChar "<" "&lt;" tag)))
    by (apply replaceChar_length; simpl; lia).
  assert (H2 : String.length tag <= String.length (replaceChar "<" "&lt;" tag))
    by (apply replaceChar_length; simpl; lia).
  rewrite length_append in H1.
  change (String.length "&lt;") with 4 in H1.
  change (String.length (String "<" tag)) with (S (String.length tag)).
  lia.
Qed.

Lemma escapeTag_no_angle_brackets (tag : string) :
  charIn "<" (escapeTag tag) = false /\ charIn ">" (escapeTag tag) = false.
Proof.
  unfold escapeTag. split.
  - rewrite charIn_replaceChar_other by reflexivity.
    now apply charIn_replaceChar_same.
  - now apply charIn_replaceChar_same.
Qed.

Lemma escapeBoltArtifactTags_match (s : string) (m : TagMatch) :
  matchTagAt "boltArtifact" s = Some m ->
  escapeBoltArtifactTags s
  = (escapeTag (openTag m) ++ content m ++ escapeTag (closeTag m))
      ++ escapeBoltArtifactTags (after m).
Proof. exact (replaceTagPairs_match "boltArtifact" _ s m). Qed.

Lemma replaceChar_append (c : ascii) (by_ a b : string) :
  replaceChar c by_ (a ++ b) = replaceChar c by_ a ++ replaceChar c by_ b.
Proof.
  induction a as [|x a IH]; simpl; [reflexivity|].
  destruct (Ascii.eqb x c); rewrite IH; [now rewrite append_assoc | reflexivity].
Qed.

Lemma replaceChar_absent (c : ascii) (by_ s : string) :
  charIn c s = false -> replaceChar c by_ s = s.
Proof.
  induction s as [|x s IH]; simpl; intros H; [reflexivity|].
  apply orb_false_iff in H as [Hx Hs]. now rewrite Hx, (IH Hs).
Qed.

(** The escaped form of an opening tag whose attributes hold no ['>']. *)
Lemma escapeTag_opening (name attrs : string) :
  charIn "<" name = false -> charIn ">" name = false ->
  charIn ">" attrs = false ->
  escapeTag ("<" ++ name ++ attrs ++ ">")
  = "&lt;" ++ name ++ replaceChar "<" "&lt;" attrs ++ "&gt;".
Proof.
  intros Hlt Hgt Hattrs. unfold escapeTag.
  rewrite !replaceChar_append.
  rewrite (replaceChar_absent "<" _ name Hlt).
  rewrite (replaceChar_absent ">" _ name Hgt).
  rewrite (replaceChar_absent ">" _ (replaceChar "<" "&lt;" attrs))
    by (rewrite charIn_replaceChar_other; [exact Hattrs | reflexivity | reflexivity]).
  reflexivity.
Qed.

(** X11: where a pass finds a pair at the head of the text, the text is
    the opening tag with attributes that hold no ['>'], the content, the
    closing tag and a rest, and the result is that opening tag with its
    two outer brackets and every ['<'] of its attributes escaped (so that
    it holds no ['<'] and no ['>'] any more), the content as it was, the
    closing tag with its two brackets escaped, and the escaped rest. *)
Theorem escaped_pair_has_no_angle_brackets (s : string) (m : TagMatch) :
  (matchTagAt "boltAction" s = Some m ->
   exists attrs,
     charIn ">" attrs = false
     /\ s = "<boltAction" ++ attrs ++ ">" ++ content m ++ "</boltAction>" ++ after m
     /\ escapeBoltAActionTags s
        = ("&lt;boltAction" ++ replaceChar "<" "&lt;" attrs ++ "&gt;")
            ++ content m ++ "&lt;/boltAction&gt;"
            ++ escapeBoltAActionTags (after m)
     /\ charIn "<" ("&lt;boltAction" ++ replaceChar "<" "&lt;" attrs ++ "&gt;") = false
     /\ charIn ">" ("&lt;boltAction" ++ replaceChar "<" "&lt;" attrs ++ "&gt;") = false)
  /\ (matchTagAt "boltArtifact" s = Some m ->
      exists attrs,
        charIn ">" attrs = false
        /\ s = "<boltArtifact" ++ attrs ++ ">" ++ content m ++ "</boltArtifact>"
                ++ after m
        /\ escapeBoltArtifactTags s
           = ("&lt;boltArtifact" ++ replaceChar "<" "&lt;" attrs ++ "&gt;")
               ++ content m ++ "&lt;/boltArtifact&gt;"
               ++ escapeBoltArtifactTags (after m)
        /\ charIn "<" ("&lt;boltArtifact" ++ replaceChar "<" "&lt;" attrs ++ "&gt;")
           = false
        /\ charIn ">" ("&lt;boltArtifact" ++ replaceChar "<" "&lt;" attrs ++ "&gt;")
           = false).
Proof.
  split; intros Hm;
    destruct (matchTagAt_Some _ _ _ Hm) as (attrs & Ho & Hc & Hattrs & Hs & _);
    exists attrs; (split; [exact Hattrs|]).
  - assert (He : escapeTag (openTag m)
                 = "&lt;boltAction" ++ replaceChar "<" "&lt;" attrs ++ "&gt;")
      by (rewrite Ho; now apply (escapeTag_opening "boltAction")).
    split; [rewrite Hs, Ho, Hc; simpl; now rewrite !append_assoc|].
    split; [rewrite (escapeBoltAActionTags_match _ _ Hm), He, Hc;
            now rewrite !append_assoc|].
    rewrite <- He. apply escapeTag_no_angle_brackets.
  - assert (He : escapeTag (openTag m)
                 = "&lt;boltArtifact" ++ replaceChar "<" "&lt;" attrs ++ "&gt;")
      by (rewrite Ho; now apply (escapeTag_opening "boltArtifact")).
    split; [rewrite Hs, Ho, Hc; simpl; now rewrite !append_assoc|].
    split; [rewrite (escapeBoltArtifactTags_match _ _ Hm), He, Hc;
            now rewrite !append_assoc|].
    rewrite <- He. apply escapeTag_no_angle_brackets.
Qed.

(** Witness of X11: an opening tag whose attributes hold a ['<']. *)
Lemma escaped_pair_has_no_angle_brackets_witness :
  escapeBoltAActionTags "<boltAction a<b>echo</boltAction> done"
  = "&lt;boltAction a&lt;b&gt;echo&lt;/boltAction&gt; done".
Proof.
  assert (Hm : matchTagAt "boltAction" "<boltAction a<b>echo</boltAction> done"
               = Some {| openTag := "<boltAction a<b>";
                         content := "echo";
                         closeTag := "</boltAction>";
                         after := " done" |})
    by (vm_compute; reflexivity).
  destruct (proj1 (escaped_pair_has_no_angle_brackets _ _) Hm)
    as (attrs & Hattrs & Hs & Hout & _).
  cbn [content after] in Hs, Hout.
  assert (Ha : attrs = " a<b").
  { change ("<boltAction a<b>echo</boltAction> done")
      with ("<boltAction" ++ " a<b" ++ ">" ++ "echo</boltAction> done") in Hs.
    apply append_inv_head in Hs.
    clear - Hs Hattrs.
    destruct attrs as [|c0 [|c1 [|c2 [|c3 [|c4 rest]]]]]; simpl in Hs, Hattrs;
      inversion Hs; subst; try discriminate; reflexivity. }
  rewrite Hout, Ha. vm_compute. reflexivity.
Defined.

Section EscapeLength.

Variable name : string.

(** A pass returns a text without matched pair as it is, and any other
  text longer. *)
Lemma replaceTagPairs_grows (n : nat) (s : string) :
String.length s <= n ->
(replaceTagPairs name replacer s 0 = s /\ noPair name s)
\/ String.length s < String.length (replaceTagPairs name replacer s 0).
Proof.
revert s; induction n as [|n IH]; intros s Hn;
  destruct (replaceTagPairs_first name replacer s)
    as [[Hnone Hid] | (pre & from & m & Hs & _ & Hm & Hout)].
1,3: left; split; [exact Hid|]; intros before from H;
     apply matchTagAt_None; now apply (Hnone before).
all: destruct (matchTagAt_Some _ _ _ Hm) as (attrs & Ho & Hc & _ & Hfrom & _);
  change ("<" ++ name ++ attrs ++ ">")
    with (String "<" (name ++ attrs ++ ">")) in Ho;
  assert (Hlen : String.length s
                 = String.length pre + String.length (openTag m)
                   + String.length (content m) + String.length (closeTag m)
                   + String.length (after m))
    by (rewrite Hs, Hfrom, !length_append; lia);
  assert (Hopen : String.length (openTag m) < String.length (escapeTag (openTag m)))
    by (rewrite Ho; apply escapeTag_length_opening);
  pose proof (escapeTag_length (closeTag m)) as Hclose;
  assert (Hpos : 1 <= String.length (openTag m)) by (rewrite Ho; simpl; lia).
- exfalso. lia.
- right.
  assert (Hafter : String.length (after m) <= n) by lia.
  assert (Hrest : String.length (after m)
                  <= String.length (replaceTagPairs name replacer (after m) 0)).
  { destruct (IH (after m) Hafter) as [[Heq _] | Hlt]; [rewrite Heq|]; lia. }
  rewrite Hout.
  change (replacer (openTag m) (content m) (closeTag m))
    with (escapeTag (openTag m) ++ content m ++ escapeTag (closeTag m)).
  rewrite !length_append. lia.
Qed.

End EscapeLength.

Lemma escapeBoltAActionTags_grows (s : string) :
  (escapeBoltAActionTags s = s /\ noPair "boltAction" s)
  \/ String.length s < String.length (escapeBoltAActionTags s).
Proof. exact (replaceTagPairs_grows "boltAction" _ s (Nat.le_refl _)). Qed.

Lemma escapeBoltArtifactTags_grows (s : string) :
  (escapeBoltArtifactTags s = s /\ noPair "boltArtifact" s)
  \/ String.length s < String.length (escapeBoltArtifactTags s).
Proof. exact (replaceTagPairs_grows "boltArtifact" _ s (Nat.le_refl _)). Qed.

(** X12: the escaping never shortens a text.  Each pass returns a text
    unchanged exactly when the text holds no matched pair of its tag, and
    otherwise returns a strictly longer text; [escapeBoltTags] returns a
    text unchanged exactly when it holds no matched pair of either tag,
    and otherwise returns a strictly longer text. *)
Theorem escapeBoltTags_unchanged_iff (s : string) :
  (String.length s <= String.length (escapeBoltAActionTags s)
   /\ String.length s <= String.length (escapeBoltArtifactTags s)
   /\ String.length s <= String.length (escapeBoltTags s))
  /\ (escapeBoltAActionTags s = s <-> noPair "boltAction" s)
  /\ (escapeBoltArtifactTags s = s <-> noPair "boltArtifact" s)
  /\ (escapeBoltTags s = s <-> noPair "boltAction" s /\ noPair "boltArtifact" s)
  /\ (escapeBoltAActionTags s <> s ->
      String.length s < String.length (escapeBoltAActionTags s))
  /\ (escapeBoltArtifactTags s <> s ->
      String.length s < String.length (escapeBoltArtifactTags s))
  /\ (escapeBoltTags s <> s ->
      String.length s < String.length (escapeBoltTags s))
  /\ (~ noPair "boltAction" s ->
      String.length s < String.length (escapeBoltAActionTags s))
  /\ (~ noPair "boltArtifact" s ->
      String.length s < String.length (escapeBoltArtifactTags s))
  /\ (~ (noPair "boltAction" s /\ noPair "boltArtifact" s) ->
      String.length s < String.length (escapeBoltTags s)).
Proof.
  assert (Haction : String.length s <= String.length (escapeBoltAActionTags s))
    by (destruct (escapeBoltAActionTags_grows s) as [[-> _]|]; lia).
  assert (Hartifact : forall t,
             String.length t <= String.length (escapeBoltArtifactTags t))
    by (intros t; destruct (escapeBoltArtifactTags_grows t) as [[-> _]|]; lia).
  assert (Hboth : String.length s <= String.length (escapeBoltTags s)).
  { unfold escapeBoltTags. specialize (Hartifact (escapeBoltAActionTags s)). lia. }
  assert (Hcases :
    (escapeBoltTags s = s /\ noPair "boltAction" s /\ noPair "boltArtifact" s)
    \/ String.length s < String.length (escapeBoltTags s)).
  { unfold escapeBoltTags.
    destruct (escapeBoltAActionTags_grows s) as [[Hfirst Hno]|Hlt].
    - rewrite Hfirst.
      destruct (escapeBoltArtifactTags_grows s) as [[Hsecond Hno']|Hlt]; auto.
    - right. specialize (Hartifact (escapeBoltAActionTags s)). lia. }
  split; [auto|]. split; [|split; [|split]].
  - split; [|apply escapeBoltAActionTags_noPair].
    intros Heq. destruct (escapeBoltAActionTags_grows s) as [[_ H]|H]; [exact H|].
    rewrite Heq in H. lia.
  - split; [|apply escapeBoltArtifactTags_noPair].
    intros Heq. destruct (escapeBoltArtifactTags_grows s) as [[_ H]|H]; [exact H|].
    rewrite Heq in H. lia.
  - split.
    + intros Heq. destruct Hcases as [(_ & Ha & Hr)|Hlt]; [now split|].
      rewrite Heq in Hlt. lia.
    + intros [Ha Hr]. unfold escapeBoltTags.
      rewrite (escapeBoltAActionTags_noPair _ Ha).
      now apply escapeBoltArtifactTags_noPair.
  - split; [|split; [|split; [|split; [|split]]]].
    + intros Hne. destruct (escapeBoltAActionTags_grows s) as [[H _]|H];
        [contradiction | exact H].
    + intros Hne. destruct (escapeBoltArtifactTags_grows s) as [[H _]|H];
        [contradiction | exact H].
    + intros Hne. destruct Hcases as [(H & _)|H]; [contradiction | exact H].
    + intros Hne. destruct (escapeBoltAActionTags_grows s) as [[_ H]|H];
        [contradiction | exact H].
    + intros Hne. destruct (escapeBoltArtifactTags_grows s) as [[_ H]|H];
        [contradiction | exact H].
    + intros Hne. destruct Hcases as [(_ & H)|H]; [contradiction | exact H].
Qed.

(** Witness of X12: one pair makes the text twelve characters longer. *)
Lemma escapeBoltTags_unchanged_iff_witness :
  String.length "<boltAction>x</boltAction>"
  < String.length (escapeBoltTags "<boltAction>x</boltAction>").
Proof.
  assert (Hne : escapeBoltTags "<boltAction>x</boltAction>"
                <> "<boltAction>x</boltAction>") by (vm_compute; discriminate).
  exact (proj1 (proj2 (proj2 (proj2 (proj2 (proj2 (proj2
           (escapeBoltTags_unchanged_iff "<boltAction>x</boltAction>")))))))
         Hne).
Defined.

(* ===================================================================== *)
(** * The performance monitor *)
(* ===================================================================== *)

Section MetricsFacts.

Variable Number : Type.
Implicit Types (metrics : list (string * list Number)) (label : string).

Lemma metrics_has_get label metrics :
PerformanceMonitor.has label metrics
= match PerformanceMonitor.get label metrics with Some _ => true | None => false end.
Proof.
induction metrics as [|[key samples] rest IH]; simpl; [reflexivity|].
destruct (String.eqb key label); [reflexivity | exact IH].
Qed.

Lemma metrics_get_set_same label (samples : list Number) metrics :
PerformanceMonitor.get label (PerformanceMonitor.set label samples metrics)
= Some samples.
Proof.
induction metrics as [|[key old] rest IH]; simpl.
- now rewrite String.eqb_refl.
- destruct (String.eqb key label) eqn:E; simpl; rewrite E; [reflexivity | exact IH].
Qed.

Lemma metrics_get_set_other label other (samples : list Number) metrics :
other <> label ->
PerformanceMonitor.get other (PerformanceMonitor.set label samples metrics)
= PerformanceMonitor.get other metrics.
Proof.
intros Hne. induction metrics as [|[key old] rest IH]; simpl.
- destruct (String.eqb_spec label other); [congruence | reflexivity].
- destruct (String.eqb_spec key label) as [->|Hkey]; simpl.
  + destruct (String.eqb_spec label other); [congruence | reflexivity].
  + destruct (String.eqb key other); [reflexivity | exact IH].
Qed.

(** What one [recordMetric] does to the samples of each label. *)
Lemma recordMetric_get label other (value : Number) metrics :
PerformanceMonitor.get other (PerformanceMonitor.recordMetric label value metrics)
= if String.eqb label other then
    let samples :=
      (match PerformanceMonitor.get label metrics with
       | Some samples => samples
       | None => []
       end ++ [value])%list in
    Some (if (PerformanceMonitor.MAX_SAMPLES <? List.length samples)%nat
          then List.tl samples else samples)
  else PerformanceMonitor.get other metrics.
Proof.
unfold PerformanceMonitor.recordMetric. rewrite metrics_has_get.
destruct (String.eqb_spec label other) as [<-|Hne].
- destruct (PerformanceMonitor.get label metrics) as [samples|] eqn:E; simpl negb; cbv iota.
  + rewrite E. now rewrite metrics_get_set_same.
  + rewrite metrics_get_set_same. now rewrite metrics_get_set_same.
- assert (Hne' : other <> label) by congruence.
  destruct (PerformanceMonitor.get label metrics) as [samples|] eqn:E; simpl negb; cbv iota.
  + rewrite E. now rewrite metrics_get_set_other.
  + rewrite metrics_get_set_same. now rewrite !metrics_get_set_other.
Qed.

Lemma tl_skipn {A : Type} (k : nat) (l : list A) :
List.tl (skipn k l) = skipn (S k) l.
Proof.
revert l; induction k as [|k IH]; intros [|x l]; try reflexivity.
change (List.tl (skipn k l) = skipn (S k) l). apply IH.
Qed.

Lemma skipn_snoc {A : Type} (k : nat) (l : list A) (v : A) :
k <= List.length l -> (skipn k l ++ [v])%list = skipn k (l ++ [v])%list.
Proof.
revert l; induction k as [|k IH]; intros l Hk; [reflexivity|].
destruct l as [|x l]; simpl in *; [lia|]. apply IH. lia.
Qed.

(** Pushing onto the last [n] and shifting when there are more than [n]
  gives the last [n] again. *)
Lemma lastN_push {A : Type} (n : nat) (l : list A) (v : A) :
1 <= n ->
(let samples := (lastN n l ++ [v])%list in
 if (n <? List.length samples)%nat then List.tl samples else samples)
= lastN n (l ++ [v])%list.
Proof.
intros Hn. cbv zeta. unfold lastN.
rewrite !length_app, length_skipn. simpl List.length.
rewrite skipn_snoc by lia.
destruct (Nat.ltb_spec n (List.length l - (List.length l - n) + 1)) as [H|H].
- rewrite tl_skipn. f_equal. lia.
- f_equal. lia.
Qed.

Lemma lastN_length {A : Type} (n : nat) (l : list A) :
List.length (lastN n l) = Nat.min n (List.length l).
Proof. unfold lastN. rewrite length_skipn. lia. Qed.

Lemma recordAll_snoc (calls : list (string * Number)) (call : string * Number)
metrics :
recordAll (calls ++ [call]) metrics
= PerformanceMonitor.recordMetric (fst call) (snd call) (recordAll calls metrics).
Proof. unfold recordAll. now rewrite fold_left_app. Qed.

Lemma recordedFor_snoc label (calls : list (string * Number))
(call : string * Number) :
recordedFor label (calls ++ [call])
= (recordedFor label calls
   ++ if String.eqb (fst call) label then [snd call] else [])%list.
Proof.
unfold recordedFor. rewrite filter_app, map_app. simpl.
now destruct (String.eqb (fst call) label).
Qed.

(** The samples kept for a label, after any calls from empty metrics. *)
Lemma recordAll_get (calls : list (string * Number)) label :
PerformanceMonitor.get label (recordAll calls [])
= match recordedFor label calls with
  | [] => None
  | _ :: _ => Some (lastN PerformanceMonitor.MAX_SAMPLES (recordedFor label calls))
  end.
Proof.
induction calls as [|call calls IH] using rev_ind; [reflexivity|].
rewrite recordAll_snoc, recordedFor_snoc, recordMetric_get.
destruct (String.eqb (fst call) label) eqn:E.
- apply String.eqb_eq in E. rewrite E, IH.
  assert (Hpush := lastN_push PerformanceMonitor.MAX_SAMPLES
                     (recordedFor label calls) (snd call)).
  destruct (recordedFor label calls) as [|v vs] eqn:Hvs.
  + reflexivity.
  + cbv zeta in Hpush |- *. rewrite Hpush by (unfold PerformanceMonitor.MAX_SAMPLES; lia).
    destruct ((v :: vs) ++ [snd call])%list eqn:E2; [|reflexivity].
    destruct vs; discriminate E2.
- rewrite app_nil_r. exact IH.
Qed.

End MetricsFacts.

(** X13: after any sequence of [recordMetric] calls on cleared metrics, a
    label that was never recorded has no entry, and every other label
    holds the values recorded for it, oldest first, cut down to the last
    100; so an entry never holds fewer than one or more than 100
    samples. *)
Theorem recordMetric_keeps_last_samples
  (Number : Type) (stale : list (string * list Number))
  (calls : list (string * Number)) (label : string) :
  let metrics := recordAll calls (PerformanceMonitor.clearMetrics stale) in
  PerformanceMonitor.get label metrics
  = match recordedFor label calls with
    | [] => None
    | _ :: _ => Some (lastN 100 (recordedFor label calls))
    end
  /\ (forall samples,
         PerformanceMonitor.get label metrics = Some samples ->
         1 <= List.length samples <= 100).
Proof.
  cbv zeta. unfold PerformanceMonitor.clearMetrics.
  pose proof (recordAll_get Number calls label) as Hget.
  change PerformanceMonitor.MAX_SAMPLES with 100 in Hget.
  split; [exact Hget|].
  intros samples Hs. rewrite Hget in Hs.
  destruct (recordedFor label calls) as [|v vs] eqn:E; [discriminate|].
  inversion Hs; subst. rewrite lastN_length. simpl List.length. lia.
Qed.

(** Witness of X13: 102 recordings of one label keep the last 100. *)
Lemma recordMetric_keeps_last_samples_witness :
  let calls := map (fun n => ("render", n)) (seq 1 102) in
  PerformanceMonitor.get "render" (recordAll calls []) = Some (seq 3 100).
Proof.
  cbv zeta.
  destruct (recordMetric_keeps_last_samples nat []
              (map (fun n => ("render", n)) (seq 1 102)) "render") as [Hget _].
  unfold PerformanceMonitor.clearMetrics in Hget. rewrite Hget.
  vm_compute. reflexivity.
Defined.

(** X14: recording under one label leaves the samples of every other
    label as they are, whatever the metrics were. *)
Theorem recordMetric_other_labels
  (Number : Type) (label other : string) (value : Number)
  (metrics : list (string * list Number)) :
  other <> label ->
  PerformanceMonitor.get other (PerformanceMonitor.recordMetric label value metrics)
  = PerformanceMonitor.get other metrics.
Proof.
  intros Hne. rewrite recordMetric_get.
  destruct (String.eqb_spec label other); [congruence | reflexivity].
Qed.

(** Witness of X14: a save recorded beside renders. *)
Lemma recordMetric_other_labels_witness :
  PerformanceMonitor.get "render"
    (PerformanceMonitor.recordMetric "file-save" 7 [("render", [1; 2])])
  = Some [1; 2].
Proof.
  assert (Hne : "render" <> "file-save") by discriminate.
  exact (recordMetric_other_labels nat "file-save" "render" 7 [("render", [1; 2])] Hne).
Defined.

(* ===================================================================== *)
(** * The batcher *)
(* ===================================================================== *)

Section BatcherFacts.

Context {M T : Type}.
Variable processor : M -> list T -> Batcher.Processor M T.
Variable maxBatchSize : Batcher.JsNumber.

Ltac batcher_fields :=
  cbn [Batcher.batch Batcher.timeoutId Batcher.timers Batcher.nextTimer
         Batcher.processed Batcher.returned Batcher.memory].

Lemma clearTimeout_single (id : nat) : Batcher.clearTimeout id [id] = [].
Proof. unfold Batcher.clearTimeout. simpl. now rewrite Nat.eqb_refl. Qed.

Lemma lengthAtLeast_below (n : nat) :
  Batcher.lengthAtLeast n maxBatchSize = false ->
  Batcher.lengthAtLeast (n - 1) maxBatchSize = false.
Proof.
  destruct maxBatchSize as [num den| | |]; simpl; try congruence.
  rewrite !Z.leb_gt. nia.
Qed.

(** [flush] with nothing waiting only forgets the timeout. *)
Lemma flush_idle (depth : nat) (tid : option nat) (timers0 : list nat)
  (next : nat) (done back : list (list T)) (s : M) :
  Batcher.flush processor maxBatchSize depth
    (Batcher.mk [] tid timers0 next done back s)
  = Some (Batcher.mk [] None timers0 next done back s, Batcher.Returned).
Proof. destruct depth; reflexivity. Qed.

(** [flush] with items waiting, when the processor returns: the items
    are handed over and the timeout is forgotten. *)
Lemma flush_returns (depth : nat) (waiting : list T) (tid : option nat)
  (timers0 : list nat) (next : nat) (done back : list (list T)) (s s' : M) :
  waiting <> [] ->
  processor s waiting = Batcher.Returns s' ->
  Batcher.flush processor maxBatchSize (S depth)
    (Batcher.mk waiting tid timers0 next done back s)
  = Some (Batcher.mk [] None timers0 next (done ++ [waiting]) (back ++ [waiting]) s',
          Batcher.Returned).
Proof.
  intros Hne Hp. cbn [Batcher.flush]. batcher_fields. rewrite Hp.
  destruct waiting; [contradiction | reflexivity].
Qed.

(** [flush] with items waiting, when the processor throws: the items
    stay, and so does [timeoutId]. *)
Lemma flush_throws (depth : nat) (waiting : list T) (tid : option nat)
  (timers0 : list nat) (next : nat) (done back : list (list T)) (s s' : M) :
  waiting <> [] ->
  processor s waiting = Batcher.Throws s' ->
  Batcher.flush processor maxBatchSize (S depth)
    (Batcher.mk waiting tid timers0 next done back s)
  = Some (Batcher.mk waiting tid timers0 next (done ++ [waiting]) back s',
          Batcher.Threw).
Proof.
  intros Hne Hp. cbn [Batcher.flush]. batcher_fields. rewrite Hp.
  destruct waiting; [contradiction | reflexivity].
Qed.

Section NeverCalls.

Hypothesis Hprocessor : neverCalls processor.

Lemma flush_keeps (depth : nat) (st : Batcher.State M T) :
  exists st' completion,
    Batcher.flush processor maxBatchSize (S depth) st = Some (st', completion)
    /\ (concat (Batcher.returned st') ++ Batcher.batch st')%list
       = (concat (Batcher.returned st) ++ Batcher.batch st)%list.
Proof.
  destruct st as [waiting tid timers0 next done back s].
  destruct waiting as [|item waiting].
  - rewrite flush_idle. eauto.
  - destruct (Hprocessor s (item :: waiting)) as [s' [Hp|Hp]].
    + rewrite (flush_returns _ _ _ _ _ _ _ _ s') by (discriminate || exact Hp).
      do 2 eexists. split; [reflexivity|]. batcher_fields.
      rewrite concat_app. simpl. now rewrite !app_nil_r.
    + rewrite (flush_throws _ _ _ _ _ _ _ _ s') by (discriminate || exact Hp).
      do 2 eexists. split; reflexivity.
Qed.

Lemma batcher_add_keeps (depth : nat) (items : list T) (item : T)
  (st : Batcher.State M T) :
  batcherKeeps items st ->
  exists st' completion,
    Batcher.add processor maxBatchSize (S depth) item st = Some (st', completion)
    /\ batcherKeeps (items ++ [item]) st'.
Proof.
  unfold batcherKeeps. intros Hitems.
  destruct st as [waiting tid timers0 next done back s]. cbn [Batcher.returned Batcher.batch] in Hitems.
  assert (Hall : (concat back ++ waiting ++ [item])%list = (items ++ [item])%list)
    by (rewrite <- Hitems; now rewrite app_assoc).
  unfold Batcher.add, Batcher.addWith. batcher_fields.
  destruct (Batcher.lengthAtLeast _ maxBatchSize).
  - destruct tid as [id|]; batcher_fields;
      match goal with
      | |- context [Batcher.flush _ _ _ ?st0] =>
          destruct (flush_keeps depth st0) as (st' & completion & Hflush & Hkeep);
          rewrite Hflush
      end;
      exists st', completion; (split; [reflexivity|]);
      rewrite Hkeep; exact Hall.
  - destruct tid as [id|]; do 2 eexists; (split; [reflexivity|]); exact Hall.
Qed.

Lemma batcher_fire_keeps (depth : nat) (items : list T) (id : nat)
  (st : Batcher.State M T) :
  batcherKeeps items st ->
  exists st' completion,
    Batcher.fire processor maxBatchSize (S depth) id st = Some (st', completion)
    /\ batcherKeeps items st'.
Proof.
  unfold batcherKeeps. intros Hitems. unfold Batcher.fire.
  destruct (existsb (Nat.eqb id) (Batcher.timers st)).
  - match goal with
    | |- context [Batcher.flush _ _ _ ?st0] =>
        destruct (flush_keeps depth st0) as (st' & completion & Hflush & Hkeep);
          rewrite Hflush
    end.
    exists st', completion. split; [reflexivity|]. now rewrite Hkeep.
  - eauto.
Qed.

End NeverCalls.

Lemma batcherRun_snoc (depth : nat) (s : M) (events : list (BatcherEvent T))
  (event : BatcherEvent T) :
  batcherRun processor maxBatchSize depth s (events ++ [event])%list
  = batcherStep processor maxBatchSize depth
      (batcherRun processor maxBatchSize depth s events) event.
Proof. unfold batcherRun. now rewrite fold_left_app. Qed.

Lemma addedItems_snoc (events : list (BatcherEvent T)) (event : BatcherEvent T) :
  addedItems (events ++ [event])%list
  = (addedItems events
     ++ match event with AddItem item => [item] | FireTimer _ => [] end)%list.
Proof.
  induction events as [|[item|id] events IH]; simpl.
  - destruct event; reflexivity.
  - now rewrite IH.
  - exact IH.
Qed.

Lemma batcherRun_keeps (depth : nat) (s : M) (events : list (BatcherEvent T)) :
  neverCalls processor ->
  1 <= depth ->
  exists st,
    batcherRun processor maxBatchSize depth s events = Some st
    /\ batcherKeeps (addedItems events) st.
Proof.
  intros Hprocessor Hdepth.
  destruct depth as [|depth]; [lia|]. clear Hdepth.
  induction events as [|event events (st & Hrun & Hkeep)] using rev_ind.
  - exists (Batcher.init s). split; reflexivity.
  - rewrite batcherRun_snoc, addedItems_snoc, Hrun.
    destruct event as [item|id]; cbn [batcherStep].
    + destruct (batcher_add_keeps Hprocessor depth _ item _ Hkeep)
        as (st' & completion & -> & Hkeep').
      exists st'. split; [reflexivity | exact Hkeep'].
    + destruct (batcher_fire_keeps Hprocessor depth _ id _ Hkeep)
        as (st' & completion & -> & Hkeep').
      exists st'. split; [reflexivity|]. now rewrite app_nil_r.
Qed.

Section AlwaysReturns.

Hypothesis Hprocessor : alwaysReturns processor.

Lemma flush_waiting (depth : nat) (waiting : list T) (tid : option nat)
  (timers0 : list nat) (next : nat) (done back : list (list T)) (s : M) :
  waiting <> [] ->
  exists s',
    Batcher.flush processor maxBatchSize (S depth)
      (Batcher.mk waiting tid timers0 next done back s)
    = Some (Batcher.mk [] None timers0 next
              (done ++ [waiting]) (back ++ [waiting]) s',
            Batcher.Returned).
Proof.
  intros Hne. destruct (Hprocessor s waiting) as [s' Hp].
  exists s'. now apply flush_returns.
Qed.

Lemma batcher_add_invariant (depth : nat) (items : list T) (item : T)
  (st : Batcher.State M T) :
  batcherInvariant maxBatchSize items st ->
  exists st',
    Batcher.add processor maxBatchSize (S depth) item st
    = Some (st', Batcher.Returned)
    /\ batcherInvariant maxBatchSize (items ++ [item]) st'.
Proof.
  destruct st as [waiting tid timers0 next done back s].
  unfold batcherInvariant. batcher_fields.
  intros (Htimers & Hidle & Hitems & Hback & Hprocessed & Hbatch).
  assert (Hpush : List.length (waiting ++ [item])%list = List.length waiting + 1)
    by (rewrite length_app; simpl; lia).
  assert (Hne : (waiting ++ [item])%list <> [])
    by (destruct waiting; discriminate).
  assert (Hall : (concat done ++ waiting ++ [item])%list = (items ++ [item])%list)
    by (rewrite <- Hitems; now rewrite app_assoc).
  assert (Hlast : List.length (waiting ++ [item])%list = 1
                  \/ Batcher.lengthAtLeast
                       (List.length (waiting ++ [item])%list - 1) maxBatchSize
                     = false).
  { rewrite Hpush. destruct Hbatch as [->|Hbelow]; [now left|].
    right. now replace (List.length waiting + 1 - 1) with (List.length waiting)
      by lia. }
  unfold Batcher.add, Batcher.addWith. batcher_fields.
  destruct (Batcher.lengthAtLeast (List.length (waiting ++ [item])%list)
              maxBatchSize) eqn:Hfull.
  - assert (Hflushed : forall s' : M,
      batcherInvariant maxBatchSize (items ++ [item])%list
        (Batcher.mk [] None [] next
           (done ++ [waiting ++ [item]])%list
           (back ++ [waiting ++ [item]])%list s')).
    { intros s'. unfold batcherInvariant. batcher_fields.
      split; [reflexivity|]. split; [tauto|]. split.
      - rewrite concat_app. simpl. now rewrite !app_nil_r.
      - split; [now rewrite Hback|]. split; [|now left].
        apply Forall_app; split; [assumption|]. constructor; [|constructor].
        split; assumption. }
    destruct tid as [id|]; batcher_fields; rewrite Htimers;
      [rewrite clearTimeout_single|];
      match goal with
      | |- context [Batcher.flush _ _ _ (Batcher.mk _ ?t _ _ _ _ _)] =>
          destruct (flush_waiting depth _ t [] next done back s Hne) as [s' ->]
      end;
      eexists; (split; [reflexivity | apply Hflushed]).
  - destruct tid as [id|]; eexists; (split; [reflexivity|]);
      unfold batcherInvariant; batcher_fields.
    + split; [assumption|]. split; [split; [discriminate | contradiction]|].
      split; [assumption|]. split; [assumption|]. split; [assumption | now right].
    + rewrite Htimers. split; [reflexivity|].
      split; [split; [discriminate | contradiction]|].
      split; [assumption|]. split; [assumption|]. split; [assumption | now right].
Qed.

Lemma batcher_fire_invariant (depth : nat) (items : list T) (id : nat)
  (st : Batcher.State M T) :
  batcherInvariant maxBatchSize items st ->
  exists st',
    Batcher.fire processor maxBatchSize (S depth) id st
    = Some (st', Batcher.Returned)
    /\ batcherInvariant maxBatchSize items st'
    /\ (Batcher.timeoutId st = Some id ->
        Batcher.batch st' = []
        /\ concat (Batcher.processed st') = items).
Proof.
  intros Hinv. pose proof Hinv as Hinv0. revert Hinv0.
  destruct st as [waiting tid timers0 next done back s].
  unfold batcherInvariant at 1. batcher_fields.
  intros (Htimers & Hidle & Hitems & Hback & Hprocessed & Hbatch).
  subst timers0. unfold Batcher.fire. batcher_fields.
  destruct tid as [id0|]; simpl existsb.
  2:{ eexists. split; [reflexivity|]. split; [exact Hinv | discriminate]. }
  rewrite orb_false_r. destruct (Nat.eqb_spec id id0) as [->|Hne].
  2:{ eexists. split; [reflexivity|]. split; [exact Hinv | congruence]. }
  rewrite clearTimeout_single.
  assert (Hwaiting : waiting <> []).
  { intros H. apply Hidle in H. discriminate. }
  destruct (flush_waiting depth _ (Some id0) [] next done back s Hwaiting)
    as [s' ->].
  assert (Hall : concat (done ++ [waiting])%list = items)
    by (rewrite concat_app; simpl; now rewrite app_nil_r).
  eexists. split; [reflexivity|]. unfold batcherInvariant. batcher_fields. split.
  - split; [reflexivity|]. split; [tauto|]. split; [now rewrite app_nil_r|].
    split; [now rewrite Hback|]. split; [|now left].
    apply Forall_app; split; [assumption|]. constructor; [|constructor].
    split; [assumption|].
    destruct Hbatch as [Hnone|Hbelow]; [contradiction|].
    right. now apply lengthAtLeast_below.
  - intros _. split; [reflexivity | exact Hall].
Qed.

End AlwaysReturns.

Lemma batcherRun_invariant (depth : nat) (s : M) (events : list (BatcherEvent T)) :
  alwaysReturns processor ->
  1 <= depth ->
  exists st,
    batcherRun processor maxBatchSize depth s events = Some st
    /\ batcherInvariant maxBatchSize (addedItems events) st.
Proof.
  intros Hprocessor Hdepth.
  destruct depth as [|depth]; [lia|]. clear Hdepth.
  induction events as [|event events (st & Hrun & Hinv)] using rev_ind.
  - exists (Batcher.init s). split; [reflexivity|].
    unfold batcherInvariant. simpl.
    split; [reflexivity|]. split; [tauto|].
    split; [reflexivity|]. split; [reflexivity|]. split; [constructor | now left].
  - rewrite batcherRun_snoc, addedItems_snoc, Hrun.
    destruct event as [item|id]; cbn [batcherStep].
    + destruct (batcher_add_invariant Hprocessor depth _ item _ Hinv)
        as (st' & Hstep & Hinv').
      rewrite Hstep.
      exists st'. split; [reflexivity | exact Hinv'].
    + destruct (batcher_fire_invariant Hprocessor depth _ id _ Hinv)
        as (st' & Hstep & Hinv' & _).
      rewrite Hstep.
      exists st'. split; [reflexivity|]. now rewrite app_nil_r.
Qed.

End BatcherFacts.

(** What the conditions on the processor below rule out.  A processor that
    throws keeps its batch waiting: the next call hands over a batch above
    [maxBatchSize], and a batch that a timeout could not hand over waits
    with [timeoutId] set and no timeout behind it. *)
Example batcher_throwing_processor :
  batcherRun throwingProcessor (Batcher.Finite 2 1) 1 tt
    [AddItem "a"; AddItem "b"; AddItem "c"]
  = Some (Batcher.mk ["a"; "b"; "c"] None [] 2
            [["a"; "b"]; ["a"; "b"; "c"]] [] tt)
  /\ batcherRun throwingProcessor (Batcher.Finite 3 1) 1 tt
       [AddItem "a"; FireTimer 1; AddItem "b"]
     = Some (Batcher.mk ["a"; "b"] (Some 1) [] 2 [["a"]] [] tt).
Proof. split; vm_compute; reflexivity. Qed.

(** A processor that calls the batcher while it runs gets an item twice
    when that call flushes, and loses the item it added when it does not. *)
Example batcher_reentering_processor :
  batcherRun reenteringProcessor (Batcher.Finite 1 1) 2 tt [AddItem "a"]
  = Some (Batcher.mk [] None [] 1
            [["a"]; ["a"; "again"]] [["a"; "again"]; ["a"]] tt)
  /\ batcherRun reenteringProcessor (Batcher.Finite 3 1) 2 tt
       [AddItem "a"; FireTimer 1]
     = Some (Batcher.mk [] None [] 2 [["a"]] [["a"]] tt).
Proof. split; vm_compute; reflexivity. Qed.

(** X15: with a processor that does not call the batcher, a batcher
    loses, repeats and reorders nothing: after any calls and timeouts, the
    batches the processor returned from, followed by the batch still
    waiting, are the items of the calls, in call order; if the processor
    never throws either, these are all the batches it was handed. *)
Theorem batcher_keeps_items (M T : Type)
  (processor : M -> list T -> Batcher.Processor M T)
  (maxBatchSize : Batcher.JsNumber) (depth : nat) (s : M)
  (events : list (BatcherEvent T)) :
  neverCalls processor ->
  1 <= depth ->
  exists st,
    batcherRun processor maxBatchSize depth s events = Some st
    /\ (concat (Batcher.returned st) ++ Batcher.batch st)%list = addedItems events
    /\ (alwaysReturns processor -> Batcher.returned st = Batcher.processed st).
Proof.
  intros Hprocessor Hdepth.
  destruct (batcherRun_keeps processor maxBatchSize depth s events Hprocessor Hdepth)
    as (st & Hrun & Hkeep).
  exists st. split; [exact Hrun|]. split; [exact Hkeep|].
  intros Hreturns.
  destruct (batcherRun_invariant processor maxBatchSize depth s events Hreturns Hdepth)
    as (st' & Hrun' & _ & _ & _ & Hback & _).
  rewrite Hrun in Hrun'. injection Hrun' as <-. exact Hback.
Qed.

(** Witness of X15: a processor that throws; the three items wait. *)
Lemma batcher_keeps_items_witness :
  exists st,
    batcherRun throwingProcessor (Batcher.Finite 2 1) 1 tt
      [AddItem "a"; AddItem "b"; AddItem "c"] = Some st
    /\ (concat (Batcher.returned st) ++ Batcher.batch st)%list = ["a"; "b"; "c"].
Proof.
  assert (Hprocessor : neverCalls throwingProcessor)
    by (intros s items; exists s; right; reflexivity).
  assert (Hdepth : 1 <= 1) by lia.
  destruct (batcher_keeps_items unit string throwingProcessor (Batcher.Finite 2 1) 1 tt
              [AddItem "a"; AddItem "b"; AddItem "c"] Hprocessor Hdepth)
    as (st & Hrun & Hkeep & _).
  exists st. split; [exact Hrun | exact Hkeep].
Defined.

(** X16: with a processor that always returns and does not call the
    batcher, the processor never gets an empty batch, and a batch it gets
    was below [maxBatchSize] before its last item came; the batch still
    waiting is empty or below [maxBatchSize].  When [maxBatchSize] is an
    integer, a batch handed over holds at most that many items (one item,
    when it is below one), and the waiting batch holds fewer. *)
Theorem batcher_batch_size (M T : Type)
  (processor : M -> list T -> Batcher.Processor M T)
  (maxBatchSize : Batcher.JsNumber) (depth : nat) (s : M)
  (events : list (BatcherEvent T)) :
  alwaysReturns processor ->
  1 <= depth ->
  exists st,
    batcherRun processor maxBatchSize depth s events = Some st
    /\ (forall b, In b (Batcher.processed st) ->
          b <> []
          /\ (List.length b = 1
              \/ Batcher.lengthAtLeast (List.length b - 1) maxBatchSize = false))
    /\ (Batcher.batch st = []
        \/ Batcher.lengthAtLeast (List.length (Batcher.batch st)) maxBatchSize = false)
    /\ (forall k, maxBatchSize = Batcher.Finite k 1 ->
          (forall b, In b (Batcher.processed st) ->
             (Z.of_nat (List.length b) <= Z.max 1 k)%Z)
          /\ (Z.of_nat (List.length (Batcher.batch st)) < Z.max 1 k)%Z).
Proof.
  intros Hprocessor Hdepth.
  destruct (batcherRun_invariant processor maxBatchSize depth s events
              Hprocessor Hdepth)
    as (st & Hrun & _ & _ & _ & _ & Hprocessed & Hbatch).
  rewrite Forall_forall in Hprocessed.
  exists st. split; [exact Hrun|]. split; [exact Hprocessed|].
  split; [exact Hbatch|].
  intros k ->. split.
  - intros b Hb. destruct (Hprocessed b Hb) as [Hne [Hone|Hbelow]]; [lia|].
    simpl in Hbelow. rewrite Z.leb_gt in Hbelow.
    destruct b; [contradiction|]. simpl List.length in *. lia.
  - destruct Hbatch as [->|Hbelow]; [simpl; lia|].
    simpl in Hbelow. rewrite Z.leb_gt in Hbelow. lia.
Qed.

(** Witness of X16: with [maxBatchSize] 2.5 the third item fills the
    batch. *)
Lemma batcher_batch_size_witness :
  exists st,
    batcherRun quietProcessor (Batcher.Finite 5 2) 1 tt
      [AddItem "a"; AddItem "b"; AddItem "c"; AddItem "d"] = Some st
    /\ Batcher.processed st = [["a"; "b"; "c"]]
    /\ (Batcher.batch st = []
        \/ Batcher.lengthAtLeast (List.length (Batcher.batch st)) (Batcher.Finite 5 2)
           = false).
Proof.
  assert (Hprocessor : alwaysReturns quietProcessor)
    by (intros s items; exists s; reflexivity).
  assert (Hdepth : 1 <= 1) by lia.
  destruct (batcher_batch_size unit string quietProcessor (Batcher.Finite 5 2) 1 tt
              [AddItem "a"; AddItem "b"; AddItem "c"; AddItem "d"] Hprocessor Hdepth)
    as (st & Hrun & _ & Hbatch & _).
  exists st. split; [exact Hrun|]. split; [|exact Hbatch].
  vm_compute in Hrun. injection Hrun as <-. reflexivity.
Defined.

(** X17: with a processor that always returns and does not call the
    batcher, at most one timeout is set, the one [timeoutId] names, and
    one is set exactly while items wait; when it fires, every item added
    so far has been handed to the processor and nothing waits. *)
Theorem batcher_timeout (M T : Type)
  (processor : M -> list T -> Batcher.Processor M T)
  (maxBatchSize : Batcher.JsNumber) (depth : nat) (s : M)
  (events : list (BatcherEvent T)) :
  alwaysReturns processor ->
  1 <= depth ->
  exists st,
    batcherRun processor maxBatchSize depth s events = Some st
    /\ Batcher.timers st
       = match Batcher.timeoutId st with Some id => [id] | None => [] end
    /\ (Batcher.timeoutId st = None <-> Batcher.batch st = [])
    /\ (forall id,
          Batcher.timeoutId st = Some id ->
          exists st',
            batcherRun processor maxBatchSize depth s (events ++ [FireTimer id])%list
            = Some st'
            /\ Batcher.batch st' = []
            /\ Batcher.timeoutId st' = None
            /\ Batcher.timers st' = []
            /\ concat (Batcher.processed st') = addedItems events).
Proof.
  intros Hprocessor Hdepth.
  destruct (batcherRun_invariant processor maxBatchSize depth s events
              Hprocessor Hdepth) as (st & Hrun & Hinv).
  pose proof Hinv as (Ht & Hi & _).
  exists st. split; [exact Hrun|]. split; [exact Ht|]. split; [exact Hi|].
  intros id Hid. rewrite batcherRun_snoc, Hrun. cbn [batcherStep].
  destruct depth as [|depth]; [lia|].
  destruct (batcher_fire_invariant processor maxBatchSize Hprocessor depth _ id _ Hinv)
    as (st' & Hstep & Hinv' & Hfired).
  rewrite Hstep. destruct (Hfired Hid) as [Hb Hc].
  exists st'. split; [reflexivity|]. split; [exact Hb|].
  destruct Hinv' as (Ht' & Hi' & _).
  assert (Hnone : Batcher.timeoutId st' = None) by now apply Hi'.
  split; [exact Hnone|]. split; [|exact Hc].
  now rewrite Ht', Hnone.
Qed.

(** Witness of X17: three items with room for five wait for the timeout,
    and go out together when it fires. *)
Lemma batcher_timeout_witness :
  exists st',
    batcherRun quietProcessor (Batcher.Finite 5 1) 1 tt
      [AddItem "a"; AddItem "b"; AddItem "c"; FireTimer 1] = Some st'
    /\ Batcher.batch st' = []
    /\ concat (Batcher.processed st') = ["a"; "b"; "c"].
Proof.
  assert (Hprocessor : alwaysReturns quietProcessor)
    by (intros s items; exists s; reflexivity).
  assert (Hdepth : 1 <= 1) by lia.
  destruct (batcher_timeout unit string quietProcessor (Batcher.Finite 5 1) 1 tt
              [AddItem "a"; AddItem "b"; AddItem "c"] Hprocessor Hdepth)
    as (st & Hrun & _ & _ & Hfire).
  assert (Hid : Batcher.timeoutId st = Some 1)
    by (vm_compute in Hrun; injection Hrun as <-; reflexivity).
  destruct (Hfire 1 Hid) as (st' & Hrun' & Hbatch & _ & _ & Hprocessed).
  exists st'. split; [exact Hrun'|]. split; [exact Hbatch | exact Hprocessed].
Defined.
